(** * A shallow embedding of the rollingwriter package of logx

    The package lives in [rollingwriter/manager.go], [rollingwriter/writer.go]
    and the file holding [Config], the error values and the global defaults.
    Go's [int] is the 64-bit integer of amd64, written here as [Z] with its
    wrap-around spelt out ([GoInt.wrap64]).  Strings are byte strings
    ([String.string], one [ascii] per byte). *)

From Stdlib Require Import ZArith List String Ascii Bool Lia.
Import ListNotations.

Open Scope Z_scope.

(** ** Machine integers *)
Module GoInt.

(** Two's complement reading of the low 64 bits of [z]: Go's [int64]
    arithmetic. *)
Definition wrap64 (z : Z) : Z :=
  let m := z mod 2 ^ 64 in
  if m >=? 2 ^ 63 then m - 2 ^ 64 else m.

Definition max_int64 : Z := 2 ^ 63 - 1.

End GoInt.

(** ** Byte strings *)
Module GoString.

Definition byte_of (c : ascii) : Z := Z.of_nat (nat_of_ascii c).

(** [strings.HasPrefix] *)
Fixpoint has_prefix (pre s : string) : bool :=
  match pre, s with
  | EmptyString, _ => true
  | String a pre', String b s' => Ascii.eqb a b && has_prefix pre' s'
  | String _ _, EmptyString => false
  end.

(** [strings.Contains] *)
Fixpoint contains (s sub : string) : bool :=
  has_prefix sub s ||
  match s with
  | EmptyString => false
  | String _ s' => contains s' sub
  end.

(** [unicode.ToUpper] on one byte of 7-bit text. *)
Definition upper_byte (c : ascii) : ascii :=
  let b := nat_of_ascii c in
  if (97 <=? b)%nat && (b <=? 122)%nat then ascii_of_nat (b - 32) else c.

(** [strings.ToUpper] on 7-bit ASCII text: the case of every size string of
    the configuration schema ("1G", "100mb", ...). *)
Fixpoint to_upper (s : string) : string :=
  match s with
  | EmptyString => EmptyString
  | String c s' => String (upper_byte c) (to_upper s')
  end.

(** All bytes below 128. *)
Fixpoint ascii7 (s : string) : bool :=
  match s with
  | EmptyString => true
  | String c s' => (nat_of_ascii c <? 128)%nat && ascii7 s'
  end.

End GoString.

(** ** [strconv.Atoi] on a 64-bit platform (Go standard library) *)
Module Strconv.
Import GoString.

Inductive num_error := ErrSyntax | ErrRange.

Definition max_uint64 : Z := 2 ^ 64 - 1.

(** [cutoff] of [ParseUint] for base 10: [maxUint64/10 + 1]. *)
Definition cutoff10 : Z := max_uint64 / 10 + 1.

(** [lower(c) = c | ('x' - 'X')] *)
Definition lower (c : Z) : Z := Z.lor c 32.

(** The digit loop of [ParseUint(s, 10, 0)], from accumulator [n]. *)
Fixpoint parse_uint_loop (s : string) (n : Z) : Z * option num_error :=
  match s with
  | EmptyString => (n, None)
  | String ch rest =>
      let c := byte_of ch in
      let dk :=
        if (48 <=? c) && (c <=? 57) then Some (c - 48)
        else if (97 <=? lower c) && (lower c <=? 122) then Some (lower c - 97 + 10)
        else None in
      match dk with
      | None => (0, Some ErrSyntax)
      | Some d =>
          if d >=? 10 then (0, Some ErrSyntax)
          else if n >=? cutoff10 then (max_uint64, Some ErrRange)
          else
            let n' := n * 10 in
            let n1 := (n' + d) mod 2 ^ 64 in
            if (n1 <? n') || (max_uint64 <? n1) then (max_uint64, Some ErrRange)
            else parse_uint_loop rest n1
      end
  end.

(** [ParseUint(s, 10, 0)] *)
Definition parse_uint (s : string) : Z * option num_error :=
  match s with
  | EmptyString => (0, Some ErrSyntax)
  | _ => parse_uint_loop s 0
  end.

(** [ParseInt(s, 10, 0)] *)
Definition parse_int (s : string) : Z * option num_error :=
  match s with
  | EmptyString => (0, Some ErrSyntax)
  | String c rest =>
      let '(neg, s') :=
        if Ascii.eqb c "+"%char then (false, rest)
        else if Ascii.eqb c "-"%char then (true, rest)
        else (false, s) in
      let '(un, err) := parse_uint s' in
      match err with
      | Some ErrSyntax => (0, err)
      | _ =>
          let cutoff := 2 ^ 63 in
          if negb neg && (cutoff <=? un) then (cutoff - 1, Some ErrRange)
          else if neg && (cutoff <? un) then (- cutoff, Some ErrRange)
          else (if neg then - un else un, err)
      end
  end.

(** The digit loop of the fast path of [Atoi]: [ch -= '0'] is byte
    arithmetic, so every byte outside ['0'..'9'] exceeds 9. *)
Fixpoint atoi_fast_loop (s : string) (n : Z) : Z * option num_error :=
  match s with
  | EmptyString => (n, None)
  | String ch rest =>
      let d := (byte_of ch - 48) mod 256 in
      if 9 <? d then (0, Some ErrSyntax) else atoi_fast_loop rest (n * 10 + d)
  end.

Definition atoi_fast (s0 : string) : Z * option num_error :=
  match s0 with
  | EmptyString => (0, Some ErrSyntax)
  | String c rest =>
      let signed := Ascii.eqb c "-"%char || Ascii.eqb c "+"%char in
      let s := if signed then rest else s0 in
      if signed && (String.length s <? 1)%nat then (0, Some ErrSyntax)
      else
        match atoi_fast_loop s 0 with
        | (_, Some e) => (0, Some e)
        | (n, None) => (if Ascii.eqb c "-"%char then - n else n, None)
        end
  end.

(** [strconv.Atoi] with [intSize = 64]. *)
Definition atoi (s : string) : Z * option num_error :=
  let sLen := String.length s in
  if (0 <? sLen)%nat && (sLen <? 19)%nat then atoi_fast s else parse_int s.

End Strconv.

(** ** [path.Clean] and [path.Join] (Go standard library) *)
Module GoPath.
Local Open Scope string_scope.

(** Split at every ['/']. *)
Fixpoint split_slash_acc (s : string) (cur : string) : list string :=
  match s with
  | EmptyString => [cur]
  | String c s' =>
      if Ascii.eqb c "/"%char then cur :: split_slash_acc s' EmptyString
      else split_slash_acc s' (cur ++ String c EmptyString)
  end.

Definition split_slash (s : string) : list string := split_slash_acc s EmptyString.

Fixpoint join_slash (l : list string) : string :=
  match l with
  | [] => EmptyString
  | [x] => x
  | x :: l' => x ++ "/" ++ join_slash l'
  end.

(** The lexical rules of [path.Clean]: drop empty and "." elements, let
    ".." cancel the element before it (or vanish at the root), keep a
    leading "/".  [out] holds the elements kept so far, last first. *)
Fixpoint clean_elems (rooted : bool) (l : list string) (out : list string) : list string :=
  match l with
  | [] => out
  | e :: l' =>
      if String.eqb e "" || String.eqb e "." then clean_elems rooted l' out
      else if String.eqb e ".." then
        match out with
        | o :: out' => if String.eqb o ".." then clean_elems rooted l' (e :: out)
                       else clean_elems rooted l' out'
        | [] => if rooted then clean_elems rooted l' [] else clean_elems rooted l' [e]
        end
      else clean_elems rooted l' (e :: out)
  end.

Definition clean (p : string) : string :=
  match p with
  | EmptyString => "."
  | String c _ =>
      let rooted := Ascii.eqb c "/"%char in
      let body := join_slash (rev (clean_elems rooted (split_slash p) [])) in
      if rooted then "/" ++ body
      else if String.eqb body "" then "." else body
  end.

(** [path.Join] *)
Fixpoint join (elem : list string) : string :=
  match elem with
  | [] => EmptyString
  | e :: rest => if String.eqb e "" then join rest else clean (join_slash elem)
  end.

End GoPath.

(** ** Configuration, errors, manager *)
Module Config.
Local Open Scope string_scope.

Definition WithoutRolling : Z := 0.
Definition TimeRolling : Z := 1.
Definition VolumeRolling : Z := 2.

Record Config := {
  TimeTagFormat : string;
  LogPath : string;
  FileName : string;
  MaxRemain : Z;
  RollingPolicy : Z;
  RollingTimePattern : string;
  RollingVolumeSize : string;
  WriterMode : string;
  BufferWriterThreshold : Z;
  Compress : bool
}.

(** [NewDefaultConfig] *)
Definition NewDefaultConfig : Config := {|
  TimeTagFormat := "200601021504";
  LogPath := "./log";
  FileName := "log";
  MaxRemain := -1;
  RollingPolicy := 1;
  RollingTimePattern := "0 0 * * *";
  RollingVolumeSize := "1G";
  WriterMode := "lock";
  BufferWriterThreshold := 64;
  Compress := false |}.

(** [LogFilePath] *)
Definition LogFilePath (c : Config) : string :=
  GoPath.join [LogPath c; FileName c] ++ ".log".

(** The package's error values, plus the I/O errors of the OS
    (numbered). *)
Inductive error := ErrInternal | ErrClosed | ErrInvalidArgument | ErrIO (code : Z).

(** Defaults of the package: [BufferSize], [QueueSize]. *)
Definition BufferSize : Z := 1048576.
Definition QueueSize : Z := 1024.

End Config.

(** ** The functional options of [NewWriter]

    An [Option] is a function of a [Config] pointer; here the function from the
    configuration before to the configuration after. *)
Module Options.
Import Config.
Local Open Scope string_scope.

Definition Option := Config -> Config.

Definition set_TimeTagFormat v c := {| TimeTagFormat := v; LogPath := LogPath c; FileName := FileName c; MaxRemain := MaxRemain c; RollingPolicy := RollingPolicy c; RollingTimePattern := RollingTimePattern c; RollingVolumeSize := RollingVolumeSize c; WriterMode := WriterMode c; BufferWriterThreshold := BufferWriterThreshold c; Compress := Compress c |}.
Definition set_LogPath v c := {| TimeTagFormat := TimeTagFormat c; LogPath := v; FileName := FileName c; MaxRemain := MaxRemain c; RollingPolicy := RollingPolicy c; RollingTimePattern := RollingTimePattern c; RollingVolumeSize := RollingVolumeSize c; WriterMode := WriterMode c; BufferWriterThreshold := BufferWriterThreshold c; Compress := Compress c |}.
Definition set_FileName v c := {| TimeTagFormat := TimeTagFormat c; LogPath := LogPath c; FileName := v; MaxRemain := MaxRemain c; RollingPolicy := RollingPolicy c; RollingTimePattern := RollingTimePattern c; RollingVolumeSize := RollingVolumeSize c; WriterMode := WriterMode c; BufferWriterThreshold := BufferWriterThreshold c; Compress := Compress c |}.
Definition set_MaxRemain v c := {| TimeTagFormat := TimeTagFormat c; LogPath := LogPath c; FileName := FileName c; MaxRemain := v; RollingPolicy := RollingPolicy c; RollingTimePattern := RollingTimePattern c; RollingVolumeSize := RollingVolumeSize c; WriterMode := WriterMode c; BufferWriterThreshold := BufferWriterThreshold c; Compress := Compress c |}.
Definition set_RollingPolicy v c := {| TimeTagFormat := TimeTagFormat c; LogPath := LogPath c; FileName := FileName c; MaxRemain := MaxRemain c; RollingPolicy := v; RollingTimePattern := RollingTimePattern c; RollingVolumeSize := RollingVolumeSize c; WriterMode := WriterMode c; BufferWriterThreshold := BufferWriterThreshold c; Compress := Compress c |}.
Definition set_RollingTimePattern v c := {| TimeTagFormat := TimeTagFormat c; LogPath := LogPath c; FileName := FileName c; MaxRemain := MaxRemain c; RollingPolicy := RollingPolicy c; RollingTimePattern := v; RollingVolumeSize := RollingVolumeSize c; WriterMode := WriterMode c; BufferWriterThreshold := BufferWriterThreshold c; Compress := Compress c |}.
Definition set_RollingVolumeSize v c := {| TimeTagFormat := TimeTagFormat c; LogPath := LogPath c; FileName := FileName c; MaxRemain := MaxRemain c; RollingPolicy := RollingPolicy c; RollingTimePattern := RollingTimePattern c; RollingVolumeSize := v; WriterMode := WriterMode c; BufferWriterThreshold := BufferWriterThreshold c; Compress := Compress c |}.
Definition set_WriterMode v c := {| TimeTagFormat := TimeTagFormat c; LogPath := LogPath c; FileName := FileName c; MaxRemain := MaxRemain c; RollingPolicy := RollingPolicy c; RollingTimePattern := RollingTimePattern c; RollingVolumeSize := RollingVolumeSize c; WriterMode := v; BufferWriterThreshold := BufferWriterThreshold c; Compress := Compress c |}.
Definition set_BufferWriterThreshold v c := {| TimeTagFormat := TimeTagFormat c; LogPath := LogPath c; FileName := FileName c; MaxRemain := MaxRemain c; RollingPolicy := RollingPolicy c; RollingTimePattern := RollingTimePattern c; RollingVolumeSize := RollingVolumeSize c; WriterMode := WriterMode c; BufferWriterThreshold := v; Compress := Compress c |}.
Definition set_Compress v c := {| TimeTagFormat := TimeTagFormat c; LogPath := LogPath c; FileName := FileName c; MaxRemain := MaxRemain c; RollingPolicy := RollingPolicy c; RollingTimePattern := RollingTimePattern c; RollingVolumeSize := RollingVolumeSize c; WriterMode := WriterMode c; BufferWriterThreshold := BufferWriterThreshold c; Compress := v |}.

Definition WithTimeTagFormat (format : string) : Option := set_TimeTagFormat format.
Definition WithLogPath (path : string) : Option := set_LogPath path.
Definition WithFileName (name : string) : Option := set_FileName name.
Definition WithAsynchronous : Option := set_WriterMode "async".
Definition WithLock : Option := set_WriterMode "lock".
Definition WithBuffer : Option := set_WriterMode "buffer".
Definition WithBufferThreshold (n : Z) : Option := set_BufferWriterThreshold n.
Definition WithCompress : Option := set_Compress true.
Definition WithMaxRemain (max : Z) : Option := set_MaxRemain max.
Definition WithoutRollingPolicy : Option := set_RollingPolicy WithoutRolling.
Definition WithRollingTimePattern (pattern : string) : Option :=
  fun c => set_RollingTimePattern pattern (set_RollingPolicy TimeRolling c).
Definition WithRollingVolumeSize (size : string) : Option :=
  fun c => set_RollingVolumeSize size (set_RollingPolicy VolumeRolling c).

(** The loop [for _, opt := range ops { opt(&cfg) }]. *)
Definition apply_options (ops : list Option) (c : Config) : Config :=
  fold_left (fun c opt => opt c) ops c.

(** The configuration [NewWriter(ops...)] passes to [NewWriterFromConfig]. *)
Definition NewWriter_config (ops : list Option) : Config :=
  apply_options ops NewDefaultConfig.

(** The options the package provides, as values, and the [Option] each
    one returns. *)
Inductive option_value :=
| OTimeTagFormat (format : string)
| OLogPath (path : string)
| OFileName (name : string)
| OAsynchronous
| OLock
| OBuffer
| OBufferThreshold (n : Z)
| OCompress
| OMaxRemain (max : Z)
| OWithoutRollingPolicy
| ORollingTimePattern (pattern : string)
| ORollingVolumeSize (size : string).

Definition to_Option (v : option_value) : Option :=
  match v with
  | OTimeTagFormat f => WithTimeTagFormat f
  | OLogPath p => WithLogPath p
  | OFileName n => WithFileName n
  | OAsynchronous => WithAsynchronous
  | OLock => WithLock
  | OBuffer => WithBuffer
  | OBufferThreshold n => WithBufferThreshold n
  | OCompress => WithCompress
  | OMaxRemain m => WithMaxRemain m
  | OWithoutRollingPolicy => WithoutRollingPolicy
  | ORollingTimePattern p => WithRollingTimePattern p
  | ORollingVolumeSize s => WithRollingVolumeSize s
  end.

(** The value of a field after a list of options, read from the options
    alone: the last one that sets it, if any. *)
Definition last_set {A} (sets : option_value -> option A) (vs : list option_value) (d : A) : A :=
  fold_left (fun acc v => match sets v with Some x => x | None => acc end) vs d.

Definition sets_mode (v : option_value) : option string :=
  match v with
  | OAsynchronous => Some "async" | OLock => Some "lock" | OBuffer => Some "buffer"
  | _ => None
  end.

Definition sets_policy (v : option_value) : option Z :=
  match v with
  | OWithoutRollingPolicy => Some WithoutRolling
  | ORollingTimePattern _ => Some TimeRolling
  | ORollingVolumeSize _ => Some VolumeRolling
  | _ => None
  end.

Definition sets_pattern (v : option_value) : option string :=
  match v with ORollingTimePattern p => Some p | _ => None end.

Definition sets_volume (v : option_value) : option string :=
  match v with ORollingVolumeSize s => Some s | _ => None end.

End Options.

(** Outcome of a Go statement sequence that may panic. *)
Inductive go_result (A : Type) := Ok (a : A) | Panic (msg : string).
Arguments Ok {A} a.
Arguments Panic {A} msg.

Module Manager.
Import Config GoString.
Local Open Scope string_scope.

(** [time.Time] values as [Z]; [Time.Format] is the formatting function of
    the time library, a parameter of the operations that need it. *)
Definition time := Z.

(** Channel state as far as [close] is concerned. *)
Inductive chan_state := ChanOpen | ChanClosed.

(** The fields of [manager] that the operations below touch; the fire
    channel is modelled with the writer, the cron scheduler by whether it
    runs. *)
Record manager := {
  thresholdSize : Z;
  startAt : time;
  context : chan_state;
  cron_running : bool
}.

(** [close(ch)] *)
Definition close_chan (ch : chan_state) : go_result chan_state :=
  match ch with
  | ChanOpen => Ok ChanClosed
  | ChanClosed => Panic "close of closed channel"
  end.

(** [manager.Close]: [close(m.context); m.cr.Stop()].  [Cron.Stop] only
    stops the scheduler and may be called any number of times. *)
Definition Close (m : manager) : go_result manager :=
  match close_chan (context m) with
  | Panic msg => Panic msg
  | Ok ctx => Ok {| thresholdSize := thresholdSize m; startAt := startAt m;
                    context := ctx; cron_running := false |}
  end.

(** The state of the size poller goroutine of [NewManager]: in its
    [for]/[select] loop, blocked on [m.fire <- name], or returned. *)
Inductive poller := PLoop | PSending (name : string) | PDone.

(** One step of the poller's [select]: the [<-m.context] case is ready once
    the channel is closed; the timer case ([fire_now]: the tick came and
    the file is larger than the threshold, or not) is always a candidate. *)
Inductive poller_step (m : manager) : poller -> poller -> Prop :=
| PStop : context m = ChanClosed -> poller_step m PLoop PDone
| PTickNoFire : poller_step m PLoop PLoop
| PTickFire : forall name, poller_step m PLoop (PSending name).

(** [manager.GenLogFileName], with [now] the value of [time.Now()] and
    [format] the function behind [Time.Format]. *)
Definition GenLogFileName (format : time -> string -> string) (now : time)
    (c : Config) (m : manager) : string * manager :=
  let filename :=
    if Compress c then
      GoPath.join [LogPath c; FileName c ++ ".log.gz." ++ format (startAt m) (TimeTagFormat c)]
    else
      GoPath.join [LogPath c; FileName c ++ ".log." ++ format (startAt m) (TimeTagFormat c)] in
  (filename, {| thresholdSize := thresholdSize m; startAt := now;
                context := context m; cron_running := cron_running m |}).

(** The unit [switch] of [ParseVolume] with its [fallthrough]s: the number
    of times [unit *= 1024] runs. *)
Definition unit_steps (unitstr : string) : nat :=
  if String.eqb unitstr "T" || String.eqb unitstr "TB" then 4
  else if String.eqb unitstr "G" || String.eqb unitstr "GB" then 3
  else if String.eqb unitstr "M" || String.eqb unitstr "MB" then 2
  else if String.eqb unitstr "K" || String.eqb unitstr "KB" then 1
  else 4.

Fixpoint times1024 (k : nat) (u : Z) : Z :=
  match k with O => u | S k' => times1024 k' (u * 1024) end.

(** [manager.ParseVolume]: the value it stores in [m.thresholdSize]. *)
Definition ParseVolume_size (size : string) : Z :=
  let s := to_upper size in
  if negb (contains s "K" || contains s "KB" ||
           contains s "M" || contains s "MB" ||
           contains s "G" || contains s "GB" ||
           contains s "T" || contains s "TB") then 1024 * 1024 * 1024
  else
    let len := String.length s in
    let p0 := fst (Strconv.atoi (substring 0 (len - 1) s)) in
    let unitstr0 := substring (len - 1) 1 s in
    let '(p, unitstr) :=
      if String.eqb (substring (len - 1) 1 s) "B"
      then (fst (Strconv.atoi (substring 0 (len - 2) s)), substring (len - 2) 2 s)
      else (p0, unitstr0) in
    let unit := times1024 (unit_steps unitstr) 1 in
    GoInt.wrap64 (p * unit).

Definition ParseVolume (c : Config) (m : manager) : manager :=
  {| thresholdSize := ParseVolume_size (RollingVolumeSize c); startAt := startAt m;
     context := context m; cron_running := cron_running m |}.

(** [NewManager], with [now] the value of [time.Now()] and [cron_accepts]
    telling whether the cron library parses the pattern ([AddFunc] fails
    otherwise).  [None] is the error return.  The goroutines it starts are
    the cron scheduler ([cron_running]) and, for [VolumeRolling], the size
    poller ([poller]). *)
Definition NewManager (now : time) (cron_accepts : string -> bool) (c : Config) : option manager :=
  let m := {| thresholdSize := 0; startAt := now; context := ChanOpen; cron_running := false |} in
  if (RollingPolicy c =? TimeRolling)%Z then
    if cron_accepts (RollingTimePattern c)
    then Some {| thresholdSize := 0; startAt := now; context := ChanOpen; cron_running := true |}
    else None
  else if (RollingPolicy c =? VolumeRolling)%Z then Some (ParseVolume c m)
  else Some m.

End Manager.

(** ** The retention queue [rollingfilech]

    [rollingfilech] is [make(chan string, c.MaxRemain)].  Enqueueing a name
    is the [retry:] loop of [NewWriterFromConfig] and of [Reopen]'s
    goroutine:
<<
    retry:
      select {
      case w.rollingfilech <- name:
      default:
          w.DoRemove()
          goto retry
      }
>>
    and [DoRemove] is a blocking receive followed by [os.Remove]. *)
Module Retention.
Local Open Scope list_scope.

Record rq := { cap : nat; items : list string }.

(** Where a goroutine running the loop is: at [retry:], inside [DoRemove]'s
    receive, or past the loop. *)
Inductive pc := Retry (name : string) | InRemove (name : string) | Finished.

(** One indivisible channel action of such a goroutine.  [None]: it is
    finished, or blocked in [DoRemove] on an empty channel.  The third
    component is the file passed to [os.Remove], if any. *)
Definition step (q : rq) (p : pc) : option (rq * pc * option string) :=
  match p with
  | Retry n =>
      if (List.length (items q) <? cap q)%nat
      then Some ({| cap := cap q; items := (items q ++ [n])%list |}, Finished, None)
      else Some (q, InRemove n, None)
  | InRemove n =>
      match items q with
      | x :: rest => Some ({| cap := cap q; items := rest |}, Retry n, Some x)
      | [] => None
      end
  | Finished => None
  end.

(** A goroutine running alone for at most [fuel] actions: final queue,
    position, and the files removed, in order. *)
Fixpoint run (fuel : nat) (q : rq) (p : pc) : rq * pc * list string :=
  match fuel with
  | O => (q, p, [])
  | S f =>
      match step q p with
      | None => (q, p, [])
      | Some (q', p', r) =>
          let '(q'', p'', rs) := run f q' p' in
          (q'', p'', match r with Some x => x :: rs | None => rs end)
      end
  end.

(** The trimming loop of [NewWriterFromConfig]: every historical file found
    in the directory, oldest first, goes through the [retry:] loop.  Three
    actions suffice for one name when nothing else runs. *)
Fixpoint trim (q : rq) (files : list string) : rq * list string :=
  match files with
  | [] => (q, [])
  | f :: fs =>
      let '(q1, _, r1) := run 3 q (Retry f) in
      let '(q2, r2) := trim q1 fs in
      (q2, (r1 ++ r2)%list)
  end.

(** The whole system: the queue, the files removed so far, and every
    goroutine that is running the loop (the constructor's trim or a
    [Reopen] goroutine past compression). *)
Record sys := { queue : rq; removed : list string; threads : list pc }.

Inductive sys_step : sys -> sys -> Prop :=
| SysAct : forall s i p q' p' r,
    nth_error (threads s) i = Some p ->
    step (queue s) p = Some (q', p', r) ->
    sys_step s {| queue := q'; removed := (removed s ++ match r with Some x => [x] | None => [] end)%list;
                  threads := (firstn i (threads s) ++ p' :: skipn (S i) (threads s))%list |}
| SysSpawn : forall s n,
    sys_step s {| queue := queue s; removed := removed s; threads := Retry n :: threads s |}.

Inductive reachable (s0 : sys) : sys -> Prop :=
| RRefl : reachable s0 s0
| RStep : forall s s', reachable s0 s -> sys_step s s' -> reachable s0 s'.

(** [make(chan string, c.MaxRemain)] *)
Definition make_rq (max_remain : Z) : rq := {| cap := Z.to_nat max_remain; items := [] |}.

(** The trim of [NewWriterFromConfig] on the sorted historical names found
    in [LogPath]: each is joined with [LogPath] and enqueued in turn. *)
Definition trim_dir (c : Config.Config) (files : list string) : rq * list string :=
  trim (make_rq (Config.MaxRemain c)) (map (fun f => GoPath.join [Config.LogPath c; f]) files).

End Retention.

(** ** The writer core: [Writer], [LockedWriter], [BufferWriter]

    A sequential run of one writer method against the operating system.
    The OS is an [oracle] telling which call fails and with which error; a
    file descriptor is a number.  A failing [File.Write] is taken to write
    nothing.  [go f()] appends a description of the goroutine to
    [goroutines]; the goroutine runs later ([run_goroutine]). *)
Module Core.
Import Config.
Local Open Scope list_scope.

Definition bytes := list Byte.byte.

(** Calls to the OS, in the order they are issued. *)
Inductive syscall :=
| SRename (src dst : string)          (* os.Rename *)
| SOpen (path : string)               (* os.OpenFile(path, DefualtFileFlag, DefualtFileMode) *)
| SWrite (fd : nat) (b : bytes)       (* File.Write *)
| SClose (fd : nat)                   (* File.Close *)
| SRemove (path : string)             (* os.Remove *)
| SSeek (fd : nat)                    (* File.Seek(0, 0) *)
| SGzipCopy (src dst : nat)           (* io.Copy(gzip.NewWriter(dst), src) *)
| SGzipClose (fd : nat)               (* gzip.Writer.Close *)
| SLog (msg : string).                (* log.Println *)

(** Goroutines spawned: the body of [Reopen]'s [go func()]. *)
Inductive goroutine := BgReopen (oldfile : nat) (file : string).

Record state := {
  (* [Writer] *)
  file : nat;
  absPath : string;
  cf : Config;
  rollingfilech : Retention.rq;
  (* [BufferWriter] *)
  buf : bytes;
  swaping : Z;
  (* the mutex of [LockedWriter] *)
  locked : bool;
  (* the environment: a sender waiting on the unbuffered [fire] channel,
     the OS calls made, the next descriptor, the OS's answers, goroutines *)
  fire : option string;
  trace : list syscall;
  next_fd : nat;
  oracle : syscall -> option error;
  goroutines : list goroutine
}.

Definition mk f a c q b sw l fi t n o g : state :=
  {| file := f; absPath := a; cf := c; rollingfilech := q; buf := b; swaping := sw;
     locked := l; fire := fi; trace := t; next_fd := n; oracle := o; goroutines := g |}.

Definition set_file v s := mk v (absPath s) (cf s) (rollingfilech s) (buf s) (swaping s) (locked s) (fire s) (trace s) (next_fd s) (oracle s) (goroutines s).
Definition set_rq v s := mk (file s) (absPath s) (cf s) v (buf s) (swaping s) (locked s) (fire s) (trace s) (next_fd s) (oracle s) (goroutines s).
Definition set_buf v s := mk (file s) (absPath s) (cf s) (rollingfilech s) v (swaping s) (locked s) (fire s) (trace s) (next_fd s) (oracle s) (goroutines s).
Definition set_swaping v s := mk (file s) (absPath s) (cf s) (rollingfilech s) (buf s) v (locked s) (fire s) (trace s) (next_fd s) (oracle s) (goroutines s).
Definition set_locked v s := mk (file s) (absPath s) (cf s) (rollingfilech s) (buf s) (swaping s) v (fire s) (trace s) (next_fd s) (oracle s) (goroutines s).
Definition set_fire v s := mk (file s) (absPath s) (cf s) (rollingfilech s) (buf s) (swaping s) (locked s) v (trace s) (next_fd s) (oracle s) (goroutines s).
Definition set_trace v s := mk (file s) (absPath s) (cf s) (rollingfilech s) (buf s) (swaping s) (locked s) (fire s) v (next_fd s) (oracle s) (goroutines s).
Definition set_next_fd v s := mk (file s) (absPath s) (cf s) (rollingfilech s) (buf s) (swaping s) (locked s) (fire s) (trace s) v (oracle s) (goroutines s).
Definition set_oracle v s := mk (file s) (absPath s) (cf s) (rollingfilech s) (buf s) (swaping s) (locked s) (fire s) (trace s) (next_fd s) v (goroutines s).
Definition set_goroutines v s := mk (file s) (absPath s) (cf s) (rollingfilech s) (buf s) (swaping s) (locked s) (fire s) (trace s) (next_fd s) (oracle s) v.

(** The state monad. *)
Definition M (A : Type) := state -> A * state.
Definition ret {A} (a : A) : M A := fun s => (a, s).
Definition bind {A B} (m : M A) (k : A -> M B) : M B :=
  fun s => let (a, s') := m s in k a s'.

Notation "x <- m ;; k" := (bind m (fun x => k)) (at level 61, m at next level, right associativity).
Notation "m ;;; k" := (bind m (fun _ => k)) (at level 61, right associativity).

Definition get : M state := fun s => (s, s).
Definition modify (f : state -> state) : M unit := fun s => (tt, f s).

(** One OS call: recorded, answered by the oracle. *)
Definition sys (c : syscall) : M (option error) :=
  fun s => (oracle s c, set_trace (trace s ++ [c]) s).

(** [os.OpenFile]: a fresh descriptor or an error. *)
Definition os_open (p : string) : M (nat + error) :=
  fun s =>
    let s1 := set_trace (trace s ++ [SOpen p]) s in
    match oracle s (SOpen p) with
    | Some e => (inr e, s1)
    | None => (inl (next_fd s), set_next_fd (S (next_fd s)) s1)
    end.

(** [File.Write] *)
Definition file_write (fd : nat) (b : bytes) : M (Z * option error) :=
  e <- sys (SWrite fd b) ;;
  ret (match e with
       | None => (Z.of_nat (List.length b), None)
       | Some e => (0, Some e)
       end).

Definition log (msg : string) : M unit := sys (SLog msg) ;;; ret tt.

(** [go f()] *)
Definition go (g : goroutine) : M unit :=
  modify (fun s => set_goroutines (goroutines s ++ [g]) s).

(** [select { case x := <-w.fire: ... default: }]: takes the name a
    waiting sender offers, if any. *)
Definition poll_fire : M (option string) :=
  fun s => (fire s, set_fire None s).

(** [atomic.SwapPointer(&w.file, newfile)] *)
Definition swap_file (newfile : nat) : M nat :=
  fun s => (file s, set_file newfile s).

(** The [retry:] loop on [w.rollingfilech] with [DoRemove] (see
    [Retention]), run for at most [fuel] channel actions. *)
Fixpoint enqueue (fuel : nat) (p : Retention.pc) : M unit :=
  match fuel with
  | O => ret tt
  | S f =>
      s <- get ;;
      match Retention.step (rollingfilech s) p with
      | None => ret tt
      | Some (q', p', r) =>
          modify (set_rq q') ;;;
          match r with
          | Some x =>
              e <- sys (SRemove x) ;;
              match e with
              | Some _ => log "error in remove log file"
              | None => ret tt
              end
          | None => ret tt
          end ;;;
          enqueue f p'
      end
  end.

(** [Writer.CompressFile]; the [defer]s run last, [gw.Close] before
    [cmpfile.Close]. *)
Definition CompressFile (oldfile : nat) (cmpname : string) : M (option error) :=
  r <- os_open cmpname ;;
  match r with
  | inr e => ret (Some e)   (* cmpfile is nil: its deferred Close does nothing *)
  | inl cmpfile =>
      res <- (e <- sys (SSeek oldfile) ;;
              match e with
              | Some e => ret (Some e)
              | None =>
                  e <- sys (SGzipCopy oldfile cmpfile) ;;
                  match e with
                  | Some e =>
                      er <- sys (SRemove cmpname) ;;
                      match er with
                      | Some er => ret (Some er)
                      | None => ret (Some e)
                      end
                  | None => sys (SRemove (String.append cmpname ".tmp"))
                  end
              end) ;;
      sys (SGzipClose cmpfile) ;;;
      sys (SClose cmpfile) ;;;
      ret res
  end.

(** The body of [Reopen]'s goroutine: compression, then retention, then
    the deferred close of the previous handle. *)
Definition reopen_bg (oldfile : nat) (file : string) : M unit :=
  s <- get ;;
  cont <- (if Compress (cf s) then
             e <- sys (SRename file (String.append file ".tmp")) ;;
             match e with
             | Some _ => log "error in compress rename tempfile" ;;; ret false
             | None =>
                 e <- CompressFile oldfile file ;;
                 match e with
                 | Some _ => log "error in compress log file" ;;; ret false
                 | None => ret true
                 end
             end
           else ret true) ;;
  (if cont && (0 <? MaxRemain (cf s)) then enqueue 3 (Retention.Retry file) else ret tt) ;;;
  sys (SClose oldfile) ;;;
  ret tt.

(** The scheduler running the oldest pending goroutine to completion. *)
Definition run_goroutine : M unit :=
  fun s =>
    match goroutines s with
    | [] => (tt, s)
    | BgReopen old f :: gs => reopen_bg old f (set_goroutines gs s)
    end.

(** [Writer.Reopen] *)
Definition Reopen (file : string) : M (option error) :=
  s <- get ;;
  e <- sys (SRename (absPath s) file) ;;
  match e with
  | Some e => ret (Some e)
  | None =>
      r <- os_open (absPath s) ;;
      match r with
      | inr e => ret (Some e)
      | inl newfile =>
          oldfile <- swap_file newfile ;;
          go (BgReopen oldfile file) ;;;
          ret None
      end
  end.

(** The [select] that opens every [Write]: the error of [Reopen], if one
    was run and failed. *)
Definition poll_and_reopen : M (option error) :=
  sel <- poll_fire ;;
  match sel with
  | Some filename => Reopen filename
  | None => ret None
  end.

(** [Writer.Write] *)
Definition Writer_Write (b : bytes) : M (Z * option error) :=
  e <- poll_and_reopen ;;
  match e with
  | Some e => ret (0, Some e)
  | None =>
      s <- get ;;                 (* atomic.LoadPointer(&w.file) *)
      file_write (file s) b
  end.

(** [LockedWriter.Write]: the same under [w.Lock()] / deferred
    [w.Unlock()]. *)
Definition LockedWriter_Write (b : bytes) : M (Z * option error) :=
  modify (set_locked true) ;;;
  r <- (e <- poll_and_reopen ;;
        match e with
        | Some e => ret (0, Some e)
        | None => s <- get ;; file_write (file s) b
        end) ;;
  modify (set_locked false) ;;;
  ret r.

(** [atomic.CompareAndSwapInt32(&w.swaping, old, new)] *)
Definition cas_swaping (old new : Z) : M bool :=
  fun s => if swaping s =? old then (true, set_swaping new s) else (false, s).

(** [atomic.SwapPointer(&w.buf, &nb)] *)
Definition swap_buf (nb : bytes) : M bytes :=
  fun s => (buf s, set_buf nb s).

(** [BufferWriter.Write] *)
Definition BufferWriter_Write (b : bytes) : M (Z * option error) :=
  e <- poll_and_reopen ;;
  match e with
  | Some e => ret (0, Some e)
  | None =>
      s <- get ;;
      modify (set_buf (buf s ++ b)) ;;;
      s <- get ;;
      (if BufferWriterThreshold (cf s) <? Z.of_nat (List.length (buf s)) then
         won <- cas_swaping 0 1 ;;
         if won then
           ob <- swap_buf [] ;;
           s <- get ;;
           file_write (file s) ob ;;;
           modify (set_swaping 0)
         else ret tt
       else ret tt) ;;;
      ret (Z.of_nat (List.length b), None)
  end.

End Core.

(** ** [AsynchronousWriter]

    Producers calling [Write], the consumer goroutine [writer()], [Close]
    and the manager offering rotations interleave; each labelled step below
    is one indivisible action.  A [Write] is taken as one step, enabled when
    [w.queue] (capacity [QueueSize]) has room for what it enqueues, and
    [Close] as one step: no producer runs during it. *)
Module Async.
Import Config Core.
Local Open Scope list_scope.

(** The consumer goroutine: in its [select], blocked on [w.errChan <- err]
    ([errChan] is [make(chan error)]: unbuffered), or returned. *)
Inductive consumer := CLoop | CSendErr (e : error) | CDone.

Record astate := {
  core : Core.state;             (* the embedded [Writer] and the OS *)
  closed : Z;                    (* [closed int32] *)
  ctx : Manager.chan_state;      (* [ctx chan int] *)
  queue : list bytes;            (* [queue chan []byte] *)
  cons : consumer
}.

Definition set_core v s := {| core := v; closed := closed s; ctx := ctx s; queue := queue s; cons := cons s |}.
Definition set_queue v s := {| core := core s; closed := closed s; ctx := ctx s; queue := v; cons := cons s |}.
Definition set_cons v s := {| core := core s; closed := closed s; ctx := ctx s; queue := queue s; cons := v |}.

(** [AsynchronousWriter.Write].  The [select] picks any ready case: the
    consumer's pending error, a pending rotation name; [default] only when
    neither is ready.  After a rotation the bytes are copied into pooled
    buffers, one slice per buffer ([pieces]). *)
Inductive Write (s : astate) (b : bytes) : Z * option error -> astate -> Prop :=
| WClosed :
    closed s <> 0 ->
    Write s b (0, Some ErrClosed) s
| WErrChan : forall e,
    closed s = 0 -> cons s = CSendErr e ->
    Write s b (0, Some e) (set_cons CLoop s)
| WFireErr : forall fn e c',
    closed s = 0 -> fire (core s) = Some fn ->
    Reopen fn (set_fire None (core s)) = (Some e, c') ->
    Write s b (0, Some e) (set_core c' s)
| WFire : forall fn c' pieces,
    closed s = 0 -> fire (core s) = Some fn ->
    Reopen fn (set_fire None (core s)) = (None, c') ->
    List.concat pieces = b -> Forall (fun x => x <> []) pieces ->
    (Z.of_nat (List.length (queue s) + List.length pieces) <= QueueSize) ->
    Write s b (Z.of_nat (List.length b), None) (set_queue (queue s ++ pieces) (set_core c' s))
| WDefault :
    closed s = 0 -> (forall e, cons s <> CSendErr e) -> fire (core s) = None ->
    (Z.of_nat (List.length (queue s)) < QueueSize) ->
    Write s b (Z.of_nat (List.length b), None) (set_queue (queue s ++ [b]) s).

(** One action of [writer()]: take a buffer (and, on a failed write, block
    sending the error), or return once [ctx] is closed. *)
Inductive consumer_step : astate -> astate -> Prop :=
| CTake : forall s x q r c',
    cons s = CLoop -> queue s = x :: q ->
    file_write (file (core s)) x (core s) = (r, c') ->
    consumer_step s
      {| core := c'; closed := closed s; ctx := ctx s; queue := q;
         cons := match snd r with Some e => CSendErr e | None => CLoop end |}
| CExit : forall s,
    cons s = CLoop -> ctx s = Manager.ChanClosed ->
    consumer_step s (set_cons CDone s).

(** [onClose]: drain [w.queue]; after a failed write it tries
    [w.errChan <- err] in a [select] with [default], finds no receiver
    (no [Write] runs during [Close]) and returns.  Gives the buffers left. *)
Fixpoint onClose (q : list bytes) : M (list bytes) :=
  match q with
  | [] => ret []
  | x :: q' =>
      s <- get ;;
      r <- file_write (file s) x ;;
      match snd r with
      | Some _ => ret q'
      | None => onClose q'
      end
  end.

(** [AsynchronousWriter.Close] *)
Definition Close (s : astate) : go_result (option error * astate) :=
  if closed s =? 0 then
    match Manager.close_chan (ctx s) with
    | Panic msg => Panic msg
    | Ok c =>
        let '(q', c1) := onClose (queue s) (core s) in
        let '(e, c2) := sys (SClose (file c1)) c1 in
        Ok (e, {| core := c2; closed := 1; ctx := c; queue := q'; cons := cons s |})
    end
  else Ok (Some ErrClosed, s).

Inductive label :=
| LWrite (b : bytes) (r : Z * option error)
| LClose (r : option error)
| LConsumer
| LFire (name : string).

Inductive astep : astate -> label -> astate -> Prop :=
| StepWrite : forall s b r s', Write s b r s' -> astep s (LWrite b r) s'
| StepClose : forall s r s', Close s = Ok (r, s') -> astep s (LClose r) s'
| StepConsumer : forall s s', consumer_step s s' -> astep s LConsumer s'
| StepFire : forall s n,
    fire (core s) = None -> astep s (LFire n) (set_core (set_fire (Some n) (core s)) s).

(** Executions: the labels in the order they happen. *)
Inductive exec : astate -> list label -> astate -> Prop :=
| ExecNil : forall s, exec s [] s
| ExecCons : forall s l s1 ls s2, astep s l s1 -> exec s1 ls s2 -> exec s (l :: ls) s2.

End Async.

(** ** The OS calls a write issues *)
Module Calls.
Import Config Core.
Local Open Scope list_scope.

(** The calls of [Reopen fn] from state [s], followed by [after] when both
    the rename and the open succeed. *)
Definition reopen_calls (s : state) (fn : string) (after : list syscall) : list syscall :=
  SRename (absPath s) fn ::
  match oracle s (SRename (absPath s) fn) with
  | Some _ => []
  | None =>
      SOpen (absPath s) ::
      match oracle s (SOpen (absPath s)) with
      | Some _ => []
      | None => after
      end
  end.

(** Whether a [BufferWriter] write of [b] from [s] wins the flush: the
    appended buffer is over the threshold and [swaping] is idle. *)
Definition flushes (s : state) (b : bytes) : bool :=
  (BufferWriterThreshold (cf s) <? Z.of_nat (List.length (buf s ++ b))) && (swaping s =? 0).

Definition flush_calls (s : state) (fd : nat) (b : bytes) : list syscall :=
  if flushes s b then [SWrite fd (buf s ++ b)] else [].

End Calls.

(** ** Vocabulary for statements about size strings *)
Module SizeSyntax.
Import GoString.
Local Open Scope string_scope.

Definition is_digit (c : ascii) : bool :=
  (48 <=? nat_of_ascii c)%nat && (nat_of_ascii c <=? 57)%nat.

Fixpoint all_digits (s : string) : bool :=
  match s with
  | EmptyString => true
  | String c s' => is_digit c && all_digits s'
  end.

(** The decimal value of a digit string, read from accumulator [n]. *)
Fixpoint dec_acc (s : string) (n : Z) : Z :=
  match s with
  | EmptyString => n
  | String c s' => dec_acc s' (n * 10 + (byte_of c - 48))
  end.

Definition dec_value (s : string) : Z := dec_acc s 0.

(** What [ParseVolume] hands to [strconv.Atoi]: the upper-cased string
    without its last byte, or without its last two when it ends in "B". *)
Definition number_part (size : string) : string :=
  let s := to_upper size in
  let len := String.length s in
  if String.eqb (substring (len - 1) 1 s) "B" then substring 0 (len - 2) s
  else substring 0 (len - 1) s.

(** The unit string [ParseVolume] switches on: the last byte of the
    upper-cased string, or its last two when it ends in "B". *)
Definition unit_part (size : string) : string :=
  let s := to_upper size in
  let len := String.length s in
  if String.eqb (substring (len - 1) 1 s) "B" then substring (len - 2) 2 s
  else substring (len - 1) 1 s.

(** The multiplier [unit] that switch leaves. *)
Definition unit_value (size : string) : Z := Manager.times1024 (Manager.unit_steps (unit_part size)) 1.

Definition has_unit_letter (size : string) : bool :=
  let s := to_upper size in
  contains s "K" || contains s "M" || contains s "G" || contains s "T".

End SizeSyntax.

(** ** Concrete configurations and states used to exercise the model *)
Module Scenarios.
Import Config Core.
Local Open Scope string_scope.

Definition cfg_app (mode : string) (threshold : Z) : Config := {|
  TimeTagFormat := "200601021504";
  LogPath := "/var/log/app";
  FileName := "app";
  MaxRemain := 3;
  RollingPolicy := VolumeRolling;
  RollingTimePattern := "0 0 * * *";
  RollingVolumeSize := "100MB";
  WriterMode := mode;
  BufferWriterThreshold := threshold;
  Compress := false |}.

Definition q_empty : Retention.rq := {| Retention.cap := 3; Retention.items := [] |}.

Definition active : string := "/var/log/app/app.log".
Definition historical : string := "/var/log/app/app.log.202410140000".

(** A [BufferWriter] with descriptor 3 open, nothing buffered, no rotation
    pending, an OS where everything succeeds. *)
Definition st_idle : state :=
  mk 3 active (cfg_app "buffer" 64) q_empty [] 0 false None [] 4 (fun _ => None) [].

(** A rotation is pending and the rename fails with [EACCES] (13). *)
Definition oracle_rename_fails : syscall -> option error :=
  fun c => match c with SRename _ _ => Some (ErrIO 13) | _ => None end.

Definition st_rotate_fail : state :=
  mk 3 active (cfg_app "none" 64) q_empty [] 0 false (Some historical) [] 4
     oracle_rename_fails [].

(** Every [File.Write] fails with [ENOSPC] (28). *)
Definition oracle_write_fails : syscall -> option error :=
  fun c => match c with SWrite _ _ => Some (ErrIO 28) | _ => None end.

(** A [BufferWriter] with threshold 1 on a full disk. *)
Definition st_disk_full : state :=
  mk 3 active (cfg_app "buffer" 1) q_empty [] 0 false None [] 4 oracle_write_fails [].

Definition two_bytes : bytes := [Byte.x61; Byte.x62].

(** [AsynchronousWriter]s on a full disk: just built (nothing queued, the
    consumer in its loop); with the consumer blocked relaying [ENOSPC];
    and the same with a rotation pending as well. *)
Definition a_disk_full : Async.astate :=
  {| Async.core := mk 3 active (cfg_app "async" 0) q_empty [] 0 false None [] 4 oracle_write_fails [];
     Async.closed := 0; Async.ctx := Manager.ChanOpen; Async.queue := [];
     Async.cons := Async.CLoop |}.

Definition a_err_pending : Async.astate :=
  Async.set_cons (Async.CSendErr (ErrIO 28)) a_disk_full.

Definition a_err_and_rotation : Async.astate :=
  Async.set_core (set_fire (Some historical) (Async.core a_err_pending)) a_err_pending.

End Scenarios.

(** ** The [Close] methods of [Writer], [LockedWriter] and [BufferWriter] *)
Module Closers.
Import Config Core.
Local Open Scope list_scope.




End Closers.

(** ** One tick of the size poller of [NewManager]

    [open_ok]: whether [os.Open] of the active file succeeded (otherwise
    the loop [continue]s); [stat]: the size reported by [File.Stat], [None]
    when it fails.  Gives the name sent on [m.fire], if any, and the
    manager after [GenLogFileName]. *)
Module Poller.
Import Config Manager.

Definition tick (format : time -> string -> string) (now : time) (c : Config) (m : manager)
    (open_ok : bool) (stat : option Z) : option string * manager :=
  if negb open_ok then (None, m)
  else
    match stat with
    | Some size =>
        if thresholdSize m <? size then
          let '(name, m') := GenLogFileName format now c m in (Some name, m')
        else (None, m)
    | None => (None, m)
    end.

End Poller.

(** ** [NewWriterFromConfig]

    The OS of the constructor: besides the calls of [Core] it creates the
    directory ([os.MkdirAll]) and lists it ([ioutil.ReadDir]).  The time
    library and the sorting are parameters ([env]): [parse] is
    [time.Parse], [sort_by_time] is the [sort.Slice] call with its
    [Before] comparison, [read_dir] the entries (name, is a directory)
    [ReadDir] returns. *)
Module Construct.
Import Config Core.
Local Open Scope string_scope.
Local Open Scope list_scope.

Inductive call := IMkdirAll (p : string) | IReadDir (p : string) | ICore (c : syscall).

Record os := { calls : list call; fd_next : nat; answer : call -> option error }.

Definition os_call (k : call) (o : os) : option error * os :=
  (answer o k, {| calls := calls o ++ [k]; fd_next := fd_next o; answer := answer o |}).

Record env := {
  now : Manager.time;
  cron_accepts : string -> bool;
  read_dir : string -> list (string * bool);
  parse : string -> string -> option Manager.time;
  sort_by_time : list string -> list string
}.

(** The [RollingWriter] returned: which struct, with its state. *)
Inductive rolling_writer :=
| RWWriter (s : state)
| RWLocked (s : state)
| RWAsync (s : Async.astate)
| RWBuffer (s : state).

(** The error returned: one of ours or of the OS, or the parse error of
    the cron library for a pattern it rejects. *)
Inductive cerror := CErr (e : error) | CErrCron (pattern : string).

(** [path.Ext] *)
Fixpoint ext_rev (r : list ascii) (acc : string) : string :=
  match r with
  | [] => ""
  | c :: r' =>
      if Ascii.eqb c "/" then ""
      else if Ascii.eqb c "." then String "." acc
      else ext_rev r' (String c acc)
  end.

Definition ext (p : string) : string := ext_rev (rev (list_ascii_of_string p)) "".

(** The test of the [for _, fi := range dir] loop: is [fi] a historical
    log file. *)
Definition is_historical (parse : string -> string -> option Manager.time) (c : Config)
    (fi : string * bool) : bool :=
  let '(name, isdir) := fi in
  if isdir then false
  else if GoString.contains name (FileName c ++ ".log") then
    let fileSuffix := ext name in
    if (1 <? String.length fileSuffix)%nat then
      match parse (TimeTagFormat c) (substring 1 (String.length fileSuffix - 1) fileSuffix) with
      | Some _ => true
      | None => false
      end
    else false
  else false.

(** The [for _, file := range files] loop: each name, joined with
    [LogPath], through the [retry:] loop. *)
Fixpoint trim_files (dir : string) (files : list string) : M unit :=
  match files with
  | [] => ret tt
  | f :: fs => enqueue 3 (Retention.Retry (GoPath.join [dir; f])) ;;; trim_files dir fs
  end.

(** [make([]byte, 0, n)] panics when [n] is negative or the size exceeds
    the 2^48 bytes the runtime can allocate on amd64. *)
Definition makeslice_ok (n : Z) : bool := ((0 <=? n) && (n <=? 2 ^ 48))%Z.

(** [unsafe.Sizeof(hchan{})] rounded to [maxAlign] on amd64 (with the
    [timer] field of the channel header). *)
Definition hchanSize : Z := 104.

(** [make(chan string, n)] panics with "makechan: size out of range"
    when [n] is negative or [n] times the 16 bytes of a [string] exceeds
    [maxAlloc - hchanSize], [maxAlloc] being 2^48 on amd64. *)
Definition makechan_ok (n : Z) : bool := ((0 <=? n) && (16 * n <=? 2 ^ 48 - hchanSize))%Z.

(** The [switch c.WriterMode]. *)
Definition select_mode (c : Config) (s : state) : go_result (rolling_writer + cerror) :=
  if String.eqb (WriterMode c) "none" then Ok (inl (RWWriter s))
  else if String.eqb (WriterMode c) "lock" then Ok (inl (RWLocked s))
  else if String.eqb (WriterMode c) "async" then
    Ok (inl (RWAsync {| Async.core := s; Async.closed := 0; Async.ctx := Manager.ChanOpen;
                        Async.queue := []; Async.cons := Async.CLoop |}))
  else if String.eqb (WriterMode c) "buffer" then
    if makeslice_ok (GoInt.wrap64 (BufferWriterThreshold c * 2)%Z)
    then Ok (inl (RWBuffer s))
    else Panic "runtime error: makeslice: cap out of range"
  else Ok (inr (CErr ErrInvalidArgument)).

Definition with_core_calls (o : os) (s : state) : os :=
  {| calls := calls o ++ map ICore (trace s); fd_next := next_fd s; answer := answer o |}.

(** The state of the [Writer] inside a [RollingWriter]. *)
Definition rw_state (w : rolling_writer) : state :=
  match w with
  | RWWriter s | RWLocked s | RWBuffer s => s
  | RWAsync a => Async.core a
  end.

(** The [WriterMode] a [RollingWriter] is built for. *)
Definition mode_name (w : rolling_writer) : string :=
  match w with
  | RWWriter _ => "none" | RWLocked _ => "lock" | RWAsync _ => "async" | RWBuffer _ => "buffer"
  end.

(** Calls that neither open nor close a file: removals and log lines. *)
Definition quiet (k : syscall) : Prop := exists x, k = SRemove x \/ k = SLog x.

(** No ['.'] and no ['/'] in [s]. *)
Fixpoint plain (s : string) : bool :=
  match s with
  | EmptyString => true
  | String ch s' => negb (Ascii.eqb ch ".") && negb (Ascii.eqb ch "/") && plain s'
  end.

(** The paths passed to [os.Remove], in order. *)
Fixpoint core_removes (t : list syscall) : list string :=
  match t with
  | [] => []
  | SRemove x :: t' => x :: core_removes t'
  | _ :: t' => core_removes t'
  end.

(** The names [NewWriterFromConfig] hands to the trimming loop. *)
Definition historical_files (E : env) (c : Config) : list string :=
  sort_by_time E (map fst (filter (is_historical (parse E) c) (read_dir E (LogPath c)))).

(** [NewWriterFromConfig].  The writer's state starts with an empty
    trace; the calls it makes while trimming are appended to the
    constructor's. *)
Definition NewWriterFromConfig (E : env) (c : Config) (o : os)
    : go_result (rolling_writer + cerror) * os :=
  if String.eqb (LogPath c) "" || String.eqb (FileName c) "" then
    (Ok (inr (CErr ErrInvalidArgument)), o)
  else
    let '(e1, o1) := os_call (IMkdirAll (LogPath c)) o in
    match e1 with
    | Some e => (Ok (inr (CErr e)), o1)
    | None =>
        let filepath := LogFilePath c in
        let '(e2, o2) := os_call (ICore (SOpen filepath)) o1 in
        match e2 with
        | Some e => (Ok (inr (CErr e)), o2)
        | None =>
            let fd := fd_next o2 in
            let o3 := {| calls := calls o2; fd_next := S fd; answer := answer o2 |} in
            match Manager.NewManager (now E) (cron_accepts E) c with
            | None => (Ok (inr (CErrCron (RollingTimePattern c))), o3)
            | Some _ =>
                let s0 := mk fd filepath c (Retention.make_rq (MaxRemain c)) [] 0 false None []
                             (fd_next o3) (fun k => answer o3 (ICore k)) [] in
                if (0 <? MaxRemain c)%Z then
                  if negb (makechan_ok (MaxRemain c)) then
                    (Panic "makechan: size out of range", o3)
                  else
                  let '(e4, o4) := os_call (IReadDir (LogPath c)) o3 in
                  match e4 with
                  | Some e => (Ok (inr (CErr e)), o4)
                  | None =>
                      let files := historical_files E c in
                      let s1 := snd (trim_files (LogPath c) files s0) in
                      (select_mode c s1, with_core_calls o4 s1)
                  end
                else (select_mode c s0, o3)
            end
        end
    end.

(** [NewWriter] *)
Definition NewWriter (E : env) (ops : list Options.Option) (o : os)
    : go_result (rolling_writer + cerror) * os :=
  NewWriterFromConfig E (Options.NewWriter_config ops) o.

End Construct.

(** ** The [logx] package: [logLevel], [encoder], [runner], [Init]

    The zap logger is modelled by what [Init] configures: its cores (the
    encoder, the time format, the sink, the level), whether it adds the
    caller, the level from which it adds stack traces, and development
    mode.  [Logger.WithOptions] returns a modified copy. *)
Module Logx.
Local Open Scope string_scope.
Local Open Scope list_scope.

Inductive level := DebugLevel | InfoLevel | WarnLevel | ErrorLevel | PanicLevel | FatalLevel.
Inductive enc_kind := JSONEncoder | ConsoleEncoder.
Inductive sink := SinkWriter (w : Construct.rolling_writer) | SinkStdout.

Record zcore := { zenc : enc_kind; zformat : string; zsink : sink; zlevel : level }.
Record logger := { lcores : list zcore; lcaller : bool; lstack : option level; ldev : bool }.

Record appender := { Level : string; Rolling : option Config.Config }.

Record Config := {
  Format : string;
  Type_ : string;  (* [Type] *)
  Stacktrace : bool;
  Development : bool;
  Appenders : list appender
}.

(** [unicode.ToLower] on one byte of 7-bit text, and [strings.ToLower]. *)
Definition lower_byte (c : ascii) : ascii :=
  let b := nat_of_ascii c in
  if (65 <=? b)%nat && (b <=? 90)%nat then ascii_of_nat (b + 32) else c.

Fixpoint to_lower (s : string) : string :=
  match s with
  | EmptyString => EmptyString
  | String c s' => String (lower_byte c) (to_lower s')
  end.

(** [strings.TrimSpace] on 7-bit text: the white space bytes are tab,
    newline, vertical tab, form feed, carriage return and space. *)
Definition is_space (c : ascii) : bool :=
  let b := nat_of_ascii c in ((9 <=? b)%nat && (b <=? 13)%nat) || (b =? 32)%nat.

Fixpoint drop_space (l : list ascii) : list ascii :=
  match l with
  | [] => []
  | c :: l' => if is_space c then drop_space l' else l
  end.

Definition trim_space (s : string) : string :=
  string_of_list_ascii (rev (drop_space (rev (drop_space (list_ascii_of_string s))))).

(** [logLevel] *)
Definition logLevel (lvl : string) : level :=
  let l := trim_space (to_lower lvl) in
  if String.eqb l "debug" then DebugLevel
  else if String.eqb l "info" then InfoLevel
  else if String.eqb l "warn" then WarnLevel
  else if String.eqb l "error" then ErrorLevel
  else if String.eqb l "panic" then PanicLevel
  else if String.eqb l "fatal" then FatalLevel
  else InfoLevel.

(** [encoder] *)
Definition encoder (typ : string) : enc_kind :=
  let t := trim_space (to_lower typ) in
  if String.eqb t "json" then JSONEncoder
  else if String.eqb t "console" then ConsoleEncoder
  else JSONEncoder.

(** [runner], with [hostname] the value of [os.Hostname()], [abs] that of
    [filepath.Abs(os.Args[0])] and [dir] the function [filepath.Dir]. *)
Definition runner (hostname abs : string) (dir : string -> string) : string * string :=
  let pwd := dir abs in
  let _ := pwd in
  (hostname, abs).

(** The [for _, app := range cfg.Appenders] loop: a writer per appender,
    [os.Stdout] when [NewWriterFromConfig] fails; a [nil] [Rolling]
    dereferenced by [NewWriterFromConfig] panics. *)
Fixpoint build_cores (E : Construct.env) (enc : enc_kind) (format : string)
    (apps : list appender) (o : Construct.os) : go_result (list zcore) * Construct.os :=
  match apps with
  | [] => (Ok [], o)
  | app :: rest =>
      match Rolling app with
      | None => (Panic "runtime error: invalid memory address or nil pointer dereference", o)
      | Some rc =>
          let '(r, o1) := Construct.NewWriterFromConfig E rc o in
          match r with
          | Panic msg => (Panic msg, o1)
          | Ok w =>
              let writer := match w with inl rw => SinkWriter rw | inr _ => SinkStdout end in
              let core := {| zenc := enc; zformat := format; zsink := writer;
                             zlevel := logLevel (Level app) |} in
              let '(rs, o2) := build_cores E enc format rest o1 in
              match rs with
              | Panic msg => (Panic msg, o2)
              | Ok cores => (Ok (core :: cores), o2)
              end
          end
      end
  end.

(** [Init]: the line printed and the logger stored in [logger].  The
    result of [logger.WithOptions(zap.Development())] is not assigned. *)
Definition Init (E : Construct.env) (hostname abs : string) (dir : string -> string)
    (cfg : Config) (o : Construct.os) : go_result (string * logger) * Construct.os :=
  let '(hn, pwd) := runner hostname abs dir in
  let msg := ("HostName: " ++ hn ++ ", Workerspace: " ++ pwd ++ String (ascii_of_nat 10) "")%string in
  let enc := encoder (Type_ cfg) in
  let '(rs, o1) := build_cores E enc (Format cfg) (Appenders cfg) o in
  match rs with
  | Panic m => (Panic m, o1)
  | Ok cores =>
      let lg := {| lcores := cores; lcaller := true; lstack := None; ldev := false |} in
      let lg := if Stacktrace cfg
                then {| lcores := lcores lg; lcaller := lcaller lg; lstack := Some ErrorLevel;
                        ldev := ldev lg |}
                else lg in
      let lg := if Development cfg
                then let _ := {| lcores := lcores lg; lcaller := lcaller lg; lstack := lstack lg;
                                 ldev := true |} in lg
                else lg in
      (Ok (msg, lg), o1)
  end.

End Logx.

(** ** Concrete environments for the constructor and [Init] *)
Module Fixtures.
Import Config Construct.
Local Open Scope string_scope.
Local Open Scope list_scope.

(** A directory with one historical file, one of another program, one
    with a tag that does not parse, and a subdirectory; tags of twelve
    digits parse. *)
Definition env0 : env := {|
  now := 0;
  cron_accepts := fun _ => true;
  read_dir := fun _ => [("app.log.202401010000", false); ("myapp.log.202401020000", false);
                        ("app.log.bad", false); ("app.log.202401030000", true)];
  parse := fun _ tag => if (String.length tag =? 12)%nat && SizeSyntax.all_digits tag then Some 0 else None;
  sort_by_time := fun l => l
|}.

(** An OS where every call succeeds. *)
Definition os_ok : os := {| calls := []; fd_next := 3; answer := fun _ => None |}.

(** The [Config] of the scenarios with a given writer mode and threshold. *)
Definition cfg (mode : string) (threshold : Z) : Config := Scenarios.cfg_app mode threshold.

(** [logx.Config] values: a console encoder (written with spaces and
    capitals), stack traces and development mode on. *)
Definition logx_cfg (apps : list Logx.appender) : Logx.Config := {|
  Logx.Format := "2006-01-02 15:04:05";
  Logx.Type_ := " Console ";
  Logx.Stacktrace := true;
  Logx.Development := true;
  Logx.Appenders := apps |}.

Definition app_of (lvl : string) (rc : option Config) : Logx.appender :=
  {| Logx.Level := lvl; Logx.Rolling := rc |}.

(** A [Reopen] goroutine's writer with compression on; [copy_fails] makes
    [io.Copy] fail with [ENOSPC] (28). *)
Definition copy_fails : Core.syscall -> option error :=
  fun k => match k with Core.SGzipCopy _ _ => Some (ErrIO 28) | _ => None end.

Definition st_compress (o : Core.syscall -> option error) : Core.state :=
  Core.mk 3 Scenarios.active (Options.WithCompress (Scenarios.cfg_app "lock" 64)) Scenarios.q_empty
    [] 0 false None [] 4 o [].

End Fixtures.

(** * Properties *)

Module CoreFacts.
Import Config Core Calls.
Local Open Scope list_scope.

Ltac unfold_core :=
  unfold Writer_Write, LockedWriter_Write, BufferWriter_Write, poll_and_reopen, Reopen,
    poll_fire, swap_file, go, file_write, cas_swaping, swap_buf, sys, os_open,
    reopen_calls, flush_calls, flushes, bind, get, modify, ret,
    set_file, set_rq, set_buf, set_swaping, set_locked, set_fire, set_trace, set_next_fd,
    set_oracle, set_goroutines, mk.

Ltac split_core :=
  repeat (cbn; match goal with
               | |- context [match ?o ?x with _ => _ end] =>
                   match type of (o x) with option error => destruct (o x) eqn:? end
               | |- context [if ?c then _ else _] => destruct c eqn:?
               end); cbn.

Lemma Writer_Write_trace (b : bytes) (s : state) :
  trace (snd (Writer_Write b s)) =
  trace s ++ match fire s with
             | None => [SWrite (file s) b]
             | Some fn => reopen_calls s fn [SWrite (next_fd s) b]
             end.
Proof.
  destruct s as [f a c q bf sw l fi t n o g]; unfold_core; cbn.
  destruct fi as [fn|]; split_core; rewrite <- ?app_assoc; reflexivity.
Qed.

Lemma LockedWriter_Write_trace (b : bytes) (s : state) :
  trace (snd (LockedWriter_Write b s)) =
  trace s ++ match fire s with
             | None => [SWrite (file s) b]
             | Some fn => reopen_calls s fn [SWrite (next_fd s) b]
             end.
Proof.
  destruct s as [f a c q bf sw l fi t n o g]; unfold_core; cbn.
  destruct fi as [fn|]; split_core; rewrite <- ?app_assoc; reflexivity.
Qed.

Lemma BufferWriter_Write_trace (b : bytes) (s : state) :
  trace (snd (BufferWriter_Write b s)) =
  trace s ++ match fire s with
             | None => flush_calls s (file s) b
             | Some fn => reopen_calls s fn (flush_calls s (next_fd s) b)
             end.
Proof.
  destruct s as [f a c q bf sw l fi t n o g]; unfold_core; cbn.
  destruct fi as [fn|]; split_core; rewrite <- ?app_assoc, ?app_nil_r; reflexivity.
Qed.

Lemma Reopen_result (fn : string) (s : state) :
  fst (Reopen fn s) =
  match oracle s (SRename (absPath s) fn) with
  | Some e => Some e
  | None => oracle s (SOpen (absPath s))
  end.
Proof.
  destruct s as [f a c q bf sw l fi t n o g]; unfold_core; split_core; reflexivity.
Qed.

Lemma Reopen_trace (fn : string) (s : state) :
  trace (snd (Reopen fn s)) = trace s ++ reopen_calls s fn [].
Proof.
  destruct s as [f a c q bf sw l fi t n o g]; unfold_core; split_core;
    rewrite <- ?app_assoc; reflexivity.
Qed.

Lemma Reopen_goroutines (fn : string) (s : state) :
  goroutines (snd (Reopen fn s)) =
  goroutines s ++
  match oracle s (SRename (absPath s) fn), oracle s (SOpen (absPath s)) with
  | None, None => [BgReopen (file s) fn]
  | _, _ => []
  end.
Proof.
  destruct s as [f a c q bf sw l fi t n o g]; unfold_core; split_core;
    rewrite ?app_nil_r; reflexivity.
Qed.

Lemma poll_and_reopen_fire (fn : string) (s : state) :
  fire s = Some fn -> poll_and_reopen s = Reopen fn (set_fire None s).
Proof.
  destruct s as [f a c q bf sw l fi t n o g]; cbn; intros ->; reflexivity.
Qed.

Lemma Writer_Write_reopen_error (b : bytes) (s : state) (fn : string) (e : error) :
  fire s = Some fn -> fst (Reopen fn (set_fire None s)) = Some e ->
  Writer_Write b s = ((0, Some e), snd (Reopen fn (set_fire None s))).
Proof.
  intros Hf He. unfold Writer_Write, bind at 1. rewrite (poll_and_reopen_fire fn s Hf).
  destruct (Reopen fn (set_fire None s)) as [r s1]; cbn in He |- *; subst r; reflexivity.
Qed.

Lemma LockedWriter_Write_reopen_error (b : bytes) (s : state) (fn : string) (e : error) :
  fire s = Some fn -> fst (Reopen fn (set_fire None (set_locked true s))) = Some e ->
  LockedWriter_Write b s =
  ((0, Some e), set_locked false (snd (Reopen fn (set_fire None (set_locked true s))))).
Proof.
  intros Hf He. unfold LockedWriter_Write, bind at 1, modify at 1. cbn beta iota.
  unfold bind at 1, bind at 1.
  assert (Hf' : fire (set_locked true s) = Some fn) by (destruct s; exact Hf).
  rewrite (poll_and_reopen_fire fn _ Hf').
  destruct (Reopen fn (set_fire None (set_locked true s))) as [r s1]; cbn in He |- *; subst r.
  reflexivity.
Qed.

Lemma BufferWriter_Write_reopen_error (b : bytes) (s : state) (fn : string) (e : error) :
  fire s = Some fn -> fst (Reopen fn (set_fire None s)) = Some e ->
  BufferWriter_Write b s = ((0, Some e), snd (Reopen fn (set_fire None s))).
Proof.
  intros Hf He. unfold BufferWriter_Write, bind at 1. rewrite (poll_and_reopen_fire fn s Hf).
  destruct (Reopen fn (set_fire None s)) as [r s1]; cbn in He |- *; subst r; reflexivity.
Qed.

Lemma BufferWriter_Write_result (b : bytes) (s : state) :
  fst (BufferWriter_Write b s) =
  match fire s with
  | None => (Z.of_nat (List.length b), None)
  | Some fn =>
      match fst (Reopen fn (set_fire None s)) with
      | Some e => (0, Some e)
      | None => (Z.of_nat (List.length b), None)
      end
  end.
Proof.
  destruct s as [f a c q bf sw l fi t n o g]; unfold_core; cbn.
  destruct fi as [fn|]; split_core; reflexivity.
Qed.

Lemma BufferWriter_Write_buf (b : bytes) (s : state) :
  fire s = None ->
  buf (snd (BufferWriter_Write b s)) = if flushes s b then [] else buf s ++ b.
Proof.
  destruct s as [f a c q bf sw l fi t n o g]; cbn; intros ->; unfold_core; split_core;
    try reflexivity; congruence.
Qed.

End CoreFacts.

Module WriterClaims.
Import Config Core Calls CoreFacts Scenarios.
Local Open Scope list_scope.

(** C1 (corrected).  Every [Write] of [Writer], [LockedWriter] and
    [BufferWriter] first polls the fire channel.  With a name pending, the
    OS sees [Reopen]'s rename first, then its open, and only when both
    succeed what the variant writes, on the new descriptor.  With no name
    pending, [Writer] and [LockedWriter] write the bytes to the active file
    at once, and [BufferWriter] appends them to its buffer and writes to
    the file only when the buffer goes over [BufferWriterThreshold]. *)
Theorem C1_poll_then_write (b : bytes) (s : state) :
  trace (snd (Writer_Write b s)) =
    trace s ++ match fire s with
               | None => [SWrite (file s) b]
               | Some fn => reopen_calls s fn [SWrite (next_fd s) b]
               end /\
  trace (snd (LockedWriter_Write b s)) =
    trace s ++ match fire s with
               | None => [SWrite (file s) b]
               | Some fn => reopen_calls s fn [SWrite (next_fd s) b]
               end /\
  trace (snd (BufferWriter_Write b s)) =
    trace s ++ match fire s with
               | None => flush_calls s (file s) b
               | Some fn => reopen_calls s fn (flush_calls s (next_fd s) b)
               end.
Proof.
  exact (conj (Writer_Write_trace b s)
          (conj (LockedWriter_Write_trace b s) (BufferWriter_Write_trace b s))).
Qed.

(** C1 counterexample: a [BufferWriter] with nothing pending that is given
    one byte writes nothing to any file. *)
Lemma C1_buffer_write_not_on_file :
  fire st_idle = None /\
  ~ (exists fd, In (SWrite fd [Byte.x61]) (trace (snd (BufferWriter_Write [Byte.x61] st_idle)))).
Proof.
  split; [reflexivity|]. vm_compute. intros [fd H]. exact H.
Qed.

(** C2.  [Reopen] fails exactly when the rename or the open fails, with
    that error; it issues no other OS call (closing, compressing and
    retention are the body of the goroutine it spawns, which runs later).
    When the [Reopen] of a [Write] fails, the [Write] returns [(0, err)]
    and issues no write: nothing after [Reopen]'s calls. *)
Theorem C2_reopen_sync_errors (fn : string) (b : bytes) (s : state) :
  fst (Reopen fn s) =
    match oracle s (SRename (absPath s) fn) with
    | Some e => Some e
    | None => oracle s (SOpen (absPath s))
    end /\
  trace (snd (Reopen fn s)) = trace s ++ reopen_calls s fn [] /\
  goroutines (snd (Reopen fn s)) =
    goroutines s ++
    match oracle s (SRename (absPath s) fn), oracle s (SOpen (absPath s)) with
    | None, None => [BgReopen (file s) fn]
    | _, _ => []
    end /\
  (fire s = Some fn -> forall e, fst (Reopen fn (set_fire None s)) = Some e ->
     Writer_Write b s = ((0, Some e), snd (Reopen fn (set_fire None s))) /\
     BufferWriter_Write b s = ((0, Some e), snd (Reopen fn (set_fire None s))) /\
     fst (LockedWriter_Write b s) = (0, Some e) /\
     trace (snd (LockedWriter_Write b s)) =
       trace (snd (Reopen fn (set_fire None (set_locked true s))))).
Proof.
  split; [apply Reopen_result|].
  split; [apply Reopen_trace|].
  split; [apply Reopen_goroutines|].
  intros Hf e He.
  assert (He' : fst (Reopen fn (set_fire None (set_locked true s))) = Some e).
  { rewrite Reopen_result. rewrite Reopen_result in He. destruct s; exact He. }
  split; [apply (Writer_Write_reopen_error b s fn e Hf He)|].
  split; [apply (BufferWriter_Write_reopen_error b s fn e Hf He)|].
  rewrite (LockedWriter_Write_reopen_error b s fn e Hf He'). split; [reflexivity|].
  destruct (Reopen fn (set_fire None (set_locked true s))); reflexivity.
Qed.

Lemma C2_reopen_sync_errors_witness :
  fire st_rotate_fail = Some historical /\
  fst (Reopen historical (set_fire None st_rotate_fail)) = Some (ErrIO 13) /\
  Writer_Write two_bytes st_rotate_fail =
    ((0, Some (ErrIO 13)), snd (Reopen historical (set_fire None st_rotate_fail))).
Proof.
  destruct (C2_reopen_sync_errors historical two_bytes st_rotate_fail) as (_ & _ & _ & H).
  split; [reflexivity|].
  split; [reflexivity|].
  exact (proj1 (H eq_refl (ErrIO 13) eq_refl)).
Defined.

(** C9.  The result of [BufferWriter.Write] is [(len b, nil)] unless a
    pending [Reopen] fails, whatever the OS answers to the flush's write;
    the OS sees no other call (no log line), and the flushed buffer is
    gone from the writer. *)
Theorem C9_buffer_flush_error_dropped (b : bytes) (s : state) :
  fst (BufferWriter_Write b s) =
    match fire s with
    | None => (Z.of_nat (List.length b), None)
    | Some fn =>
        match fst (Reopen fn (set_fire None s)) with
        | Some e => (0, Some e)
        | None => (Z.of_nat (List.length b), None)
        end
    end /\
  trace (snd (BufferWriter_Write b s)) =
    trace s ++ match fire s with
               | None => flush_calls s (file s) b
               | Some fn => reopen_calls s fn (flush_calls s (next_fd s) b)
               end /\
  (fire s = None ->
   buf (snd (BufferWriter_Write b s)) = if flushes s b then [] else buf s ++ b).
Proof.
  split; [apply BufferWriter_Write_result|].
  split; [apply BufferWriter_Write_trace|].
  apply BufferWriter_Write_buf.
Qed.

Lemma C9_buffer_flush_error_dropped_witness :
  fire st_disk_full = None /\
  oracle st_disk_full (SWrite 3 two_bytes) = Some (ErrIO 28) /\
  fst (BufferWriter_Write two_bytes st_disk_full) = (2, None) /\
  trace (snd (BufferWriter_Write two_bytes st_disk_full)) = [SWrite 3 two_bytes] /\
  buf (snd (BufferWriter_Write two_bytes st_disk_full)) = [].
Proof.
  destruct (C9_buffer_flush_error_dropped two_bytes st_disk_full) as (H1 & H2 & H3).
  split; [reflexivity|].
  split; [reflexivity|].
  split; [rewrite H1; reflexivity|].
  split; [rewrite H2; reflexivity|].
  rewrite (H3 eq_refl). reflexivity.
Defined.

End WriterClaims.

Module SizeFacts.
Import GoString Strconv Manager SizeSyntax.
Local Open Scope string_scope.
Local Open Scope Z_scope.

Lemma to_upper_app x y : to_upper (x ++ y) = to_upper x ++ to_upper y.
Proof. induction x as [|c x IH]; cbn; [reflexivity|now rewrite IH]. Qed.

Lemma digit_bounds c : is_digit c = true -> (48 <= nat_of_ascii c <= 57)%nat.
Proof. unfold is_digit; intros H; apply andb_prop in H as [H1 H2]; apply Nat.leb_le in H1, H2; lia. Qed.

Lemma to_upper_digits d : all_digits d = true -> to_upper d = d.
Proof.
  induction d as [|c d IH]; cbn; [reflexivity|].
  intros H; apply andb_prop in H as [Hc Hd]. rewrite IH by exact Hd. f_equal.
  apply digit_bounds in Hc. unfold upper_byte.
  destruct (97 <=? nat_of_ascii c)%nat eqn:E; [apply Nat.leb_le in E; lia|reflexivity].
Qed.

Lemma contains_app_r x y sub : contains y sub = true -> contains (x ++ y) sub = true.
Proof. induction x as [|c x IH]; cbn; intros H; [exact H|]. rewrite (IH H). apply orb_true_r. Qed.

Lemma length_app x y : String.length (x ++ y) = (String.length x + String.length y)%nat.
Proof. induction x as [|c x IH]; cbn; [reflexivity|now rewrite IH]. Qed.

Lemma substring_app_l x y : substring 0 (String.length x) (x ++ y) = x.
Proof. induction x as [|c x IH]; cbn; [destruct y; reflexivity|now rewrite IH]. Qed.

Lemma substring_app_off x y k m : substring (String.length x + k) m (x ++ y) = substring k m y.
Proof. induction x as [|c x IH]; cbn; [reflexivity|exact IH]. Qed.

Lemma fast_loop_digits d n : all_digits d = true -> atoi_fast_loop d n = (dec_acc d n, None).
Proof.
  revert n; induction d as [|c d IH]; intros n; cbn; [reflexivity|].
  intros H; apply andb_prop in H as [Hc Hd]. apply digit_bounds in Hc.
  unfold byte_of.
  rewrite Z.mod_small by lia.
  replace (9 <? Z.of_nat (nat_of_ascii c) - 48) with false by (symmetry; apply Z.ltb_ge; lia).
  apply IH; exact Hd.
Qed.

Lemma atoi_digits d :
  all_digits d = true -> (0 < String.length d < 19)%nat -> atoi d = (dec_value d, None).
Proof.
  intros Hd Hl. unfold atoi.
  replace ((0 <? String.length d)%nat && (String.length d <? 19)%nat) with true
    by (symmetry; apply andb_true_intro; split; apply Nat.ltb_lt; lia).
  destruct d as [|c d']; [cbn in Hl; lia|].
  pose proof Hd as Hd'. cbn in Hd'. apply andb_prop in Hd' as [Hc _]. apply digit_bounds in Hc.
  unfold atoi_fast.
  assert (Hm : Ascii.eqb c "-"%char = false).
  { destruct (Ascii.eqb_spec c "-"%char) as [->|]; [cbn in Hc; lia|reflexivity]. }
  assert (Hp : Ascii.eqb c "+"%char = false).
  { destruct (Ascii.eqb_spec c "+"%char) as [->|]; [cbn in Hc; lia|reflexivity]. }
  rewrite Hm, Hp. cbn [orb andb]. rewrite (fast_loop_digits _ _ Hd). reflexivity.
Qed.

Ltac pv_case d :=
  unfold ParseVolume_size; rewrite to_upper_app, (to_upper_digits d) by assumption;
  cbn [to_upper upper_byte nat_of_ascii]; cbv zeta.

Lemma pv_digits_unit d u :
  all_digits d = true -> (0 < String.length d < 19)%nat ->
  In u ["K"; "M"; "G"; "T"; "KB"; "MB"; "GB"; "TB"] ->
  ParseVolume_size (d ++ u) = GoInt.wrap64 (dec_value d * times1024 (unit_steps u) 1).
Proof.
  intros Hd Hl Hu.
  unfold ParseVolume_size. rewrite to_upper_app, (to_upper_digits d Hd).
  assert (Hup : to_upper u = u) by (repeat destruct Hu as [<-|Hu]; try reflexivity; contradiction).
  rewrite Hup.
  assert (Hc : (contains (d ++ u) "K" || contains (d ++ u) "KB" || contains (d ++ u) "M" ||
               contains (d ++ u) "MB" || contains (d ++ u) "G" || contains (d ++ u) "GB" ||
               contains (d ++ u) "T" || contains (d ++ u) "TB") = true).
  { repeat destruct Hu as [<-|Hu]; try contradiction;
    match goal with |- context [contains (d ++ ?u) ?u] => rewrite (contains_app_r d u u eq_refl) end;
    rewrite ?orb_true_r, ?orb_true_l; reflexivity. }
  rewrite Hc. cbv zeta. cbn [negb]. rewrite length_app.
  repeat destruct Hu as [<-|Hu]; try contradiction; cbn [String.length];
  first
    [ replace (String.length d + 1 - 1)%nat with (String.length d + 0)%nat by lia;
      rewrite substring_app_off; cbn [substring String.eqb Ascii.eqb Bool.eqb];
      rewrite <- plus_n_O, substring_app_l, atoi_digits by assumption; reflexivity
    | replace (String.length d + 2 - 1)%nat with (String.length d + 1)%nat by lia;
      replace (String.length d + 2 - 2)%nat with (String.length d + 0)%nat by lia;
      rewrite substring_app_off; cbn [substring String.eqb Ascii.eqb Bool.eqb];
      rewrite substring_app_off; rewrite <- plus_n_O, substring_app_l, atoi_digits by assumption;
      reflexivity ].
Qed.

Lemma atoi_syntax_zero x v : atoi x = (v, Some ErrSyntax) -> v = 0%Z.
Proof.
  unfold atoi; destruct (_ && _).
  - unfold atoi_fast. destruct x as [|c x]; [intros H; inversion H; reflexivity|].
    destruct (_ && _); [intros H; inversion H; reflexivity|].
    destruct (atoi_fast_loop _ _) as [n [e|]]; intros H; inversion H; reflexivity.
  - unfold parse_int. destruct x as [|c x]; [intros H; inversion H; reflexivity|].
    destruct (if Ascii.eqb c "+"%char then _ else _) as [neg s'].
    destruct (parse_uint s') as [un [[|]|]];
      [intros H; inversion H; reflexivity| |];
      destruct (_ && _); try (intros H; inversion H; fail);
      destruct (_ && _); intros H; inversion H.
Qed.

Lemma parse_uint_loop_range s n u : parse_uint_loop s n = (u, Some ErrRange) -> u = max_uint64.
Proof.
  revert n; induction s as [|ch s IH]; intros n; cbn [parse_uint_loop]; [discriminate|].
  destruct (if (48 <=? byte_of ch) && (byte_of ch <=? 57) then _ else _) as [d|]; [|discriminate].
  destruct (d >=? 10); [discriminate|].
  destruct (n >=? cutoff10); [intros H; inversion H; reflexivity|].
  destruct (_ || _); [intros H; inversion H; reflexivity|]. apply IH.
Qed.

Lemma atoi_fast_loop_err s n v e : atoi_fast_loop s n = (v, Some e) -> e = ErrSyntax.
Proof.
  revert n; induction s as [|ch s IH]; intros n; cbn [atoi_fast_loop]; [discriminate|].
  destruct (9 <? _); [intros H; inversion H; reflexivity|]. apply IH.
Qed.

(** A range error of [Atoi] comes with the clamped value: [2^63 - 1] or
    [-2^63]. *)
Lemma atoi_range_clamped x v : atoi x = (v, Some ErrRange) -> v = GoInt.max_int64 \/ v = (- 2 ^ 63)%Z.
Proof.
  unfold atoi; destruct (_ && _).
  - unfold atoi_fast. destruct x as [|c x]; [discriminate|].
    destruct (_ && _); [discriminate|].
    destruct (atoi_fast_loop _ _) as [n [e|]] eqn:E; intros H; inversion H; subst.
    apply atoi_fast_loop_err in E. discriminate.
  - unfold parse_int. destruct x as [|c x]; [discriminate|].
    destruct (if Ascii.eqb c "+"%char then _ else _) as [neg s'].
    destruct (parse_uint s') as [un [[|]|]] eqn:U; [discriminate| |].
    + assert (Hu : un = max_uint64).
      { destruct s' as [|a s']; [discriminate|]. exact (parse_uint_loop_range _ _ _ U). }
      subst un. destruct neg; cbn [negb andb].
      * replace (2 ^ 63 <? max_uint64)%Z with true by reflexivity.
        intros H; inversion H; right; reflexivity.
      * replace (2 ^ 63 <=? max_uint64)%Z with true by reflexivity.
        intros H; inversion H; left; reflexivity.
    + destruct (_ && _); [intros H; inversion H; left; reflexivity|].
      destruct (_ && _); [intros H; inversion H; right; reflexivity|].
      intros H; inversion H.
Qed.

Lemma has_prefix_head a r s : has_prefix (String a r) s = true -> has_prefix (String a EmptyString) s = true.
Proof. destruct s as [|b s]; cbn; [discriminate|]. intros H; apply andb_prop in H as [H _]. now rewrite H. Qed.

Lemma contains_head s a r : contains s (String a r) = true -> contains s (String a EmptyString) = true.
Proof.
  induction s as [|b s IH]; intros H; [cbn in H; discriminate|].
  change (has_prefix (String a r) (String b s) || contains s (String a r) = true) in H.
  change (has_prefix (String a EmptyString) (String b s) || contains s (String a EmptyString) = true).
  apply orb_prop in H as [H|H].
  - rewrite (has_prefix_head a r _ H). reflexivity.
  - rewrite (IH H). apply orb_true_r.
Qed.

Lemma contains_head_false s a r : contains s (String a EmptyString) = false -> contains s (String a r) = false.
Proof.
  intros H. destruct (contains s (String a r)) eqn:E; [|reflexivity].
  apply contains_head in E. congruence.
Qed.

Lemma unit_condition_true size :
  has_unit_letter size = true ->
  (let s := to_upper size in
   contains s "K" || contains s "KB" || contains s "M" || contains s "MB" ||
   contains s "G" || contains s "GB" || contains s "T" || contains s "TB") = true.
Proof.
  unfold has_unit_letter; cbv zeta.
  destruct (contains (to_upper size) "K"), (contains (to_upper size) "M"),
           (contains (to_upper size) "G"), (contains (to_upper size) "T");
    cbn; rewrite ?orb_true_r; try reflexivity; discriminate.
Qed.

Lemma times1024_units u k :
  In (u, k) [("K", 1); ("KB", 1); ("M", 2); ("MB", 2); ("G", 3); ("GB", 3); ("T", 4); ("TB", 4)] ->
  times1024 (unit_steps u) 1 = (1024 ^ k)%Z /\
  In u ["K"; "M"; "G"; "T"; "KB"; "MB"; "GB"; "TB"].
Proof.
  intros H; repeat destruct H as [H|H]; try contradiction; inversion H; subst;
    split; cbn; auto 10.
Qed.

End SizeFacts.

Module ManagerClaims.
Import Config GoString Manager SizeSyntax SizeFacts.
Local Open Scope string_scope.
Local Open Scope Z_scope.

Lemma NewManager_context now cron_accepts c m :
  NewManager now cron_accepts c = Some m -> context m = ChanOpen.
Proof.
  unfold NewManager, ParseVolume.
  destruct (RollingPolicy c =? TimeRolling); [destruct (cron_accepts _)|destruct (RollingPolicy c =? VolumeRolling)];
    intros H; inversion H; subst; reflexivity.
Qed.

Lemma Close_open m :
  context m = ChanOpen ->
  Close m = Ok {| thresholdSize := thresholdSize m; startAt := startAt m;
                  context := ChanClosed; cron_running := false |}.
Proof. unfold Close; intros ->; reflexivity. Qed.

Lemma Close_closed m m' : Close m = Ok m' -> context m' = ChanClosed.
Proof. unfold Close. destruct (context m); cbn; intros H; inversion H; reflexivity. Qed.

(** C3.  [manager.Close] on a manager made by [NewManager] closes the
    termination channel (so the poller's [select] may return) and stops the
    cron scheduler; called again on the result, it panics. *)
Theorem C3_close_not_idempotent :
  (forall now cron_accepts c m, NewManager now cron_accepts c = Some m ->
     exists m', Close m = Ok m' /\ context m' = ChanClosed /\ cron_running m' = false /\
                poller_step m' PLoop PDone /\ Close m' = Panic "close of closed channel") /\
  (forall m m', Close m = Ok m' -> Close m' = Panic "close of closed channel").
Proof.
  split.
  - intros now cron_accepts c m H.
    pose proof (NewManager_context _ _ _ _ H) as Hc.
    eexists; split; [apply (Close_open m Hc)|].
    split; [reflexivity|]. split; [reflexivity|].
    split; [apply PStop; reflexivity|reflexivity].
  - intros m m' H. unfold Close at 1. rewrite (Close_closed m m' H). reflexivity.
Qed.

Lemma C3_close_not_idempotent_witness :
  exists m, NewManager 0 (fun _ => true) NewDefaultConfig = Some m /\
  exists m', Close m = Ok m' /\ Close m' = Panic "close of closed channel".
Proof.
  eexists; split; [reflexivity|].
  destruct (proj1 C3_close_not_idempotent 0 (fun _ => true) NewDefaultConfig _ eq_refl)
    as (m' & H1 & _ & _ & _ & H2).
  exists m'; split; [exact H1|exact H2].
Defined.

(** C4.  [ParseVolume] gives 1024 for "1K", 2097152 for "2MB", 3221225472
    for "3GB", 1 GiB for "weird"; it sees only the upper-cased string; a
    string with none of the letters K, M, G, T gives 1 GiB; a run of 1 to
    18 decimal digits followed by K, M, G or T, optionally followed by B,
    gives the number times 1024, 1024^2, 1024^3 or 1024^4 (in [int64]). *)
Theorem C4_parse_volume :
  ParseVolume_size "1K" = 1024 /\ ParseVolume_size "2MB" = 2097152 /\
  ParseVolume_size "3GB" = 3221225472 /\ ParseVolume_size "weird" = 1073741824 /\
  (forall x y, to_upper x = to_upper y -> ParseVolume_size x = ParseVolume_size y) /\
  (forall size, has_unit_letter size = false -> ParseVolume_size size = 1024 * 1024 * 1024) /\
  (forall d u k, all_digits d = true -> (0 < String.length d < 19)%nat ->
     In (u, k) [("K", 1); ("KB", 1); ("M", 2); ("MB", 2); ("G", 3); ("GB", 3); ("T", 4); ("TB", 4)] ->
     ParseVolume_size (d ++ u) = GoInt.wrap64 (dec_value d * 1024 ^ k)).
Proof.
  split; [vm_compute; reflexivity|].
  split; [vm_compute; reflexivity|].
  split; [vm_compute; reflexivity|].
  split; [vm_compute; reflexivity|].
  split; [intros x y H; unfold ParseVolume_size; rewrite H; reflexivity|].
  split.
  - intros size H. unfold has_unit_letter in H; cbv zeta in H.
    apply orb_false_elim in H as [H HT]. apply orb_false_elim in H as [H HG].
    apply orb_false_elim in H as [HK HM].
    unfold ParseVolume_size; cbv zeta.
    rewrite HK, HM, HG, HT, (contains_head_false _ "K"%char "B" HK),
      (contains_head_false _ "M"%char "B" HM), (contains_head_false _ "G"%char "B" HG),
      (contains_head_false _ "T"%char "B" HT).
    reflexivity.
  - intros d u k Hd Hl Hu. destruct (times1024_units u k Hu) as [Ht Hin].
    rewrite (pv_digits_unit d u Hd Hl Hin), Ht. reflexivity.
Qed.

Lemma C4_parse_volume_witness :
  ParseVolume_size "2mb" = ParseVolume_size "2MB" /\
  ParseVolume_size "weird" = 1024 * 1024 * 1024 /\
  ParseVolume_size ("100" ++ "MB") = GoInt.wrap64 (dec_value "100" * 1024 ^ 2).
Proof.
  destruct C4_parse_volume as (_ & _ & _ & _ & Hci & Hdef & Hnum).
  split; [apply Hci; reflexivity|].
  split; [apply Hdef; reflexivity|].
  apply Hnum; [reflexivity|cbn; lia|cbn; auto 10].
Defined.

(** C10 (corrected).  For a size string with one of the letters K, M, G,
    T (either case) whose number part is rejected by [strconv.Atoi] with a
    syntax error, [ParseVolume] stores the threshold 0; when [Atoi]
    reports a range error instead, the value it returns is clamped to
    [2^63 - 1] or [-2^63], and the threshold is that value times the unit,
    wrapped in [int64]. *)
Theorem C10_parse_volume_zero (size : string) :
  has_unit_letter size = true ->
  (snd (Strconv.atoi (number_part size)) = Some Strconv.ErrSyntax ->
   ParseVolume_size size = 0) /\
  (forall v, Strconv.atoi (number_part size) = (v, Some Strconv.ErrRange) ->
   (v = GoInt.max_int64 \/ v = - 2 ^ 63) /\
   ParseVolume_size size = GoInt.wrap64 (v * unit_value size)).
Proof.
  intros Hu. pose proof (unit_condition_true size Hu) as Hc; cbv zeta in Hc.
  split.
  - intros Hs. unfold ParseVolume_size; cbv zeta. rewrite Hc. cbn [negb].
    unfold number_part in Hs; cbv zeta in Hs.
    destruct (String.eqb (substring (String.length (to_upper size) - 1) 1 (to_upper size)) "B").
    + destruct (Strconv.atoi (substring 0 (String.length (to_upper size) - 2) (to_upper size)))
        as [v e] eqn:E.
      cbn in Hs; subst e. rewrite (atoi_syntax_zero _ _ E). reflexivity.
    + destruct (Strconv.atoi (substring 0 (String.length (to_upper size) - 1) (to_upper size)))
        as [v e] eqn:E.
      cbn in Hs; subst e. rewrite (atoi_syntax_zero _ _ E). reflexivity.
  - intros v Hr. split; [exact (atoi_range_clamped _ _ Hr)|].
    unfold ParseVolume_size, unit_value, unit_part; cbv zeta. rewrite Hc. cbn [negb].
    unfold number_part in Hr; cbv zeta in Hr.
    destruct (String.eqb (substring (String.length (to_upper size) - 1) 1 (to_upper size)) "B");
      rewrite Hr; reflexivity.
Qed.

Lemma C10_parse_volume_zero_witness :
  has_unit_letter "KIND" = true /\
  snd (Strconv.atoi (number_part "KIND")) = Some Strconv.ErrSyntax /\
  ParseVolume_size "KIND" = 0 /\
  ParseVolume_size "MB" = 0 /\
  ParseVolume_size "99999999999999999999KX" = GoInt.wrap64 (GoInt.max_int64 * 1024 ^ 4).
Proof.
  split; [reflexivity|]. split; [vm_compute; reflexivity|].
  split; [apply (proj1 (C10_parse_volume_zero "KIND" eq_refl)); vm_compute; reflexivity|].
  split; [apply (proj1 (C10_parse_volume_zero "MB" eq_refl)); vm_compute; reflexivity|].
  rewrite (proj2 (proj2 (C10_parse_volume_zero "99999999999999999999KX" eq_refl) GoInt.max_int64
             ltac:(vm_compute; reflexivity))).
  vm_compute. reflexivity.
Defined.

(** C10 counterexample: in "99999999999999999999KX" the number part
    "99999999999999999999K" is not a decimal integer, but [Atoi] overflows
    before reaching the K and reports a range error with the value
    [2^63 - 1]; the threshold is that value times 1024^4 in [int64]. *)
Lemma C10_range_error_not_zero :
  has_unit_letter "99999999999999999999KX" = true /\
  all_digits (number_part "99999999999999999999KX") = false /\
  Strconv.atoi (number_part "99999999999999999999KX") = (GoInt.max_int64, Some Strconv.ErrRange) /\
  ParseVolume_size "99999999999999999999KX" = -1099511627776.
Proof. vm_compute. repeat split. Qed.




End ManagerClaims.

Module RetentionFacts.
Import Retention.
Local Open Scope nat_scope.
Local Open Scope list_scope.

Lemma step_inv q p q' p' r :
  step q p = Some (q', p', r) -> List.length (items q) <= cap q ->
  List.length (items q') <= cap q' /\ cap q' = cap q.
Proof.
  destruct p as [n|n|]; unfold step.
  - destruct (List.length (items q) <? cap q) eqn:E; intros Hs Hq; inversion Hs; subst;
      cbn [items cap]; [apply Nat.ltb_lt in E; rewrite length_app; cbn [List.length]|]; lia.
  - destruct (items q) as [|x rest] eqn:E; intros Hs Hq; inversion Hs; subst; cbn [items cap].
    cbn [List.length] in Hq; lia.
  - discriminate.
Qed.

Lemma reachable_inv s0 s :
  List.length (items (queue s0)) <= cap (queue s0) -> reachable s0 s ->
  List.length (items (queue s)) <= cap (queue s) /\ cap (queue s) = cap (queue s0).
Proof.
  intros H0 R; induction R as [|s s' R IH St]; [auto|].
  destruct IH as [IH1 IH2]. inversion St as [s1 i p q' p' r Hn Hs|s1 n]; subst; cbn; [|auto].
  destruct (step_inv _ _ _ _ _ Hs IH1); split; congruence.
Qed.

Lemma step_retry_room q n :
  List.length (items q) < cap q ->
  step q (Retry n) = Some ({| cap := cap q; items := items q ++ [n] |}, Finished, None).
Proof. intros H; unfold step. apply Nat.ltb_lt in H; rewrite H; reflexivity. Qed.

Lemma step_retry_full q n :
  List.length (items q) = cap q -> step q (Retry n) = Some (q, InRemove n, None).
Proof. intros H; unfold step. rewrite H, Nat.ltb_irrefl. destruct q; reflexivity. Qed.

Lemma step_remove q x rest n :
  items q = x :: rest -> step q (InRemove n) = Some ({| cap := cap q; items := rest |}, Retry n, Some x).
Proof. intros H; unfold step; rewrite H; reflexivity. Qed.

Lemma run3_retry q f :
  List.length (items q) <= cap q -> 0 < cap q ->
  exists r, run 3 q (Retry f) = ({| cap := cap q; items := skipn (List.length r) (items q ++ [f]) |}, Finished, r) /\
    r ++ skipn (List.length r) (items q ++ [f]) = items q ++ [f] /\
    List.length (skipn (List.length r) (items q ++ [f])) = Nat.min (List.length (items q ++ [f])) (cap q).
Proof.
  intros H Hc.
  destruct (Nat.lt_ge_cases (List.length (items q)) (cap q)) as [Hl|Hl].
  - exists []. cbn [run]. rewrite (step_retry_room q f Hl). cbn [skipn List.length app].
    split; [reflexivity|split; [reflexivity|]]. rewrite length_app; cbn [List.length]; lia.
  - assert (E : List.length (items q) = cap q) by lia.
    pose proof (step_retry_full q f E) as S1.
    destruct (items q) as [|x rest] eqn:Ei; [cbn in E; lia|].
    exists [x]. cbn [run]. rewrite S1, (step_remove q x rest f Ei).
    cbn [run]. rewrite step_retry_room by (cbn [items cap List.length] in E |- *; lia).
    cbn [items cap skipn List.length app].
    split; [reflexivity|split; [reflexivity|]].
    rewrite !length_app. cbn [List.length] in E |- *. lia.
Qed.

Lemma run3_full q x rest n :
  items q = x :: rest -> List.length (items q) = cap q ->
  run 3 q (Retry n) = ({| cap := cap q; items := rest ++ [n] |}, Finished, [x]).
Proof.
  intros Ei E. cbn [run].
  rewrite (step_retry_full q n E), (step_remove q x rest n Ei).
  rewrite step_retry_room by (cbn [items cap]; rewrite Ei in E; cbn [List.length] in E; lia).
  reflexivity.
Qed.

Lemma trim_spec files q :
  List.length (items q) <= cap q -> 0 < cap q ->
  let '(q', removed) := trim q files in
  cap q' = cap q /\ removed ++ items q' = items q ++ files /\
  List.length (items q') = Nat.min (List.length (items q ++ files)) (cap q).
Proof.
  revert q; induction files as [|f fs IH]; intros q H Hc; cbn [trim].
  - rewrite app_nil_r. split; [reflexivity|split; [reflexivity|lia]].
  - destruct (run3_retry q f H Hc) as (r & Er & Ea & El). rewrite Er.
    set (q1 := {| cap := cap q; items := skipn (List.length r) (items q ++ [f]) |}).
    assert (H1 : List.length (items q1) <= cap q1) by (cbn; lia).
    specialize (IH q1 H1 Hc). destruct (trim q1 fs) as [q2 r2].
    destruct IH as (C2 & A2 & L2). cbn in C2, A2, L2.
    split; [exact C2|split].
    + rewrite <- app_assoc, A2, app_assoc, Ea, <- app_assoc. reflexivity.
    + rewrite L2, !length_app, El, length_app. cbn. lia.
Qed.

End RetentionFacts.

Module EnqueueFacts.
Import Core.
Local Open Scope nat_scope.
Local Open Scope list_scope.

Lemma enqueue_inv fuel p s :
  List.length (Retention.items (rollingfilech s)) <= Retention.cap (rollingfilech s) ->
  List.length (Retention.items (rollingfilech (snd (enqueue fuel p s))))
    <= Retention.cap (rollingfilech (snd (enqueue fuel p s))) /\
  Retention.cap (rollingfilech (snd (enqueue fuel p s))) = Retention.cap (rollingfilech s).
Proof.
  revert p s; induction fuel as [|f IH]; intros p s H.
  { unfold enqueue, ret; cbn [snd]; split; [exact H|reflexivity]. }
  cbn [enqueue bind get modify ret].
  destruct (Retention.step (rollingfilech s) p) as [[[q' p'] r]|] eqn:E.
  2: { unfold bind, ret; cbn [snd]; split; [exact H|reflexivity]. }
  destruct (RetentionFacts.step_inv _ _ _ _ _ E H) as [H1 H2].
  destruct r as [x|]; unfold bind, sys, log, ret, set_rq, set_trace, mk; cbn;
    [match goal with |- context [oracle ?S (SRemove x)] => destruct (oracle S (SRemove x)) end; cbn|].
  all: match goal with |- context [enqueue _ ?P ?S] =>
         assert (Hq : rollingfilech S = q') by reflexivity;
         destruct (IH P S) as [I1 I2]; [rewrite Hq; exact H1|];
         split; [exact I1|rewrite I2, Hq; exact H2] end.
Qed.

Local Ltac red_m := unfold bind, get, modify, ret, sys, log, set_rq, set_trace, mk;
  cbv beta iota zeta; cbn [rollingfilech trace oracle]; cbv beta iota zeta.

Lemma enqueue_full s x rest n :
  Retention.items (rollingfilech s) = x :: rest ->
  List.length (Retention.items (rollingfilech s)) = Retention.cap (rollingfilech s) ->
  rollingfilech (snd (enqueue 3 (Retention.Retry n) s)) =
    {| Retention.cap := Retention.cap (rollingfilech s); Retention.items := rest ++ [n] |} /\
  In (SRemove x) (trace (snd (enqueue 3 (Retention.Retry n) s))).
Proof.
  intros Ei E.
  cbn [enqueue]. red_m.
  rewrite (RetentionFacts.step_retry_full _ n E). red_m.
  rewrite (RetentionFacts.step_remove _ x rest n Ei). red_m.
  rewrite Ei in E; cbn [List.length] in E.
  destruct (oracle s (SRemove x)); red_m;
    rewrite RetentionFacts.step_retry_room by (cbn [Retention.items Retention.cap]; lia);
    cbn; split; try reflexivity; rewrite <- ?app_assoc; apply in_or_app; right; cbn; auto.
Qed.

End EnqueueFacts.

Module RetentionClaims.
Import Config Retention.
Local Open Scope string_scope.
Local Open Scope nat_scope.
Local Open Scope list_scope.

(** C6.  With [MaxRemain > 0] the retention queue has capacity
    [MaxRemain].  The construction-time trim of the historical files found
    in [LogPath] leaves the newest [min(#files, MaxRemain)] names in the
    queue and removes exactly the older ones, oldest first.  Under any
    interleaving of goroutines running the [retry:] loop, a queue within
    its capacity stays within it.  One enqueue on a queue with room pushes;
    on a full queue it takes and removes the oldest name, then pushes; the
    [Reopen] goroutine's enqueue keeps the writer's queue within its
    capacity and, on a full queue, issues the [os.Remove] of the oldest
    name and ends with the new name last. *)
Theorem C6_retention_bounded :
  (forall c files, (0 < MaxRemain c)%Z ->
     let L := map (fun f => GoPath.join [LogPath c; f]) files in
     let '(q, removed) := trim_dir c files in
     cap q = Z.to_nat (MaxRemain c) /\ removed ++ items q = L /\
     List.length (items q) = Nat.min (List.length L) (cap q)) /\
  (forall s0 s, List.length (items (queue s0)) <= cap (queue s0) -> reachable s0 s ->
     List.length (items (queue s)) <= cap (queue s) /\ cap (queue s) = cap (queue s0)) /\
  (forall q n, List.length (items q) < cap q ->
     step q (Retry n) = Some ({| cap := cap q; items := items q ++ [n] |}, Finished, None)) /\
  (forall q x rest n, items q = x :: rest -> List.length (items q) = cap q ->
     run 3 q (Retry n) = ({| cap := cap q; items := rest ++ [n] |}, Finished, [x])) /\
  (forall fuel p s,
     List.length (items (Core.rollingfilech s)) <= cap (Core.rollingfilech s) ->
     List.length (items (Core.rollingfilech (snd (Core.enqueue fuel p s))))
       <= cap (Core.rollingfilech (snd (Core.enqueue fuel p s))) /\
     cap (Core.rollingfilech (snd (Core.enqueue fuel p s))) = cap (Core.rollingfilech s)) /\
  (forall s x rest n,
     items (Core.rollingfilech s) = x :: rest ->
     List.length (items (Core.rollingfilech s)) = cap (Core.rollingfilech s) ->
     Core.rollingfilech (snd (Core.enqueue 3 (Retry n) s)) =
       {| cap := cap (Core.rollingfilech s); items := rest ++ [n] |} /\
     In (Core.SRemove x) (Core.trace (snd (Core.enqueue 3 (Retry n) s)))).
Proof.
  split.
  { intros c files Hm. cbv zeta. unfold trim_dir.
    assert (H0 : List.length (items (make_rq (MaxRemain c))) <= cap (make_rq (MaxRemain c)))
      by (cbn; lia).
    assert (H1 : 0 < cap (make_rq (MaxRemain c))) by (cbn; lia).
    pose proof (RetentionFacts.trim_spec
                  (map (fun f => GoPath.join [LogPath c; f]) files) _ H0 H1) as T.
    destruct (trim _ _) as [q removed]. cbn [items cap make_rq app] in T.
    destruct T as (T1 & T2 & T3). rewrite T3, T1. auto. }
  split; [exact RetentionFacts.reachable_inv|].
  split; [exact RetentionFacts.step_retry_room|].
  split; [exact RetentionFacts.run3_full|].
  split; [exact EnqueueFacts.enqueue_inv|].
  exact EnqueueFacts.enqueue_full.
Qed.

Lemma C6_retention_bounded_witness :
  let c := Scenarios.cfg_app "none" 0 in
  let files := ["app.log.202410100000"; "app.log.202410110000"; "app.log.202410120000";
                "app.log.202410130000"; "app.log.202410140000"] in
  trim_dir c files =
    ({| cap := 3; items := ["/var/log/app/app.log.202410120000"; "/var/log/app/app.log.202410130000";
                           "/var/log/app/app.log.202410140000"] |},
     ["/var/log/app/app.log.202410100000"; "/var/log/app/app.log.202410110000"]) /\
  (let '(q, removed) := trim_dir c files in
   cap q = Z.to_nat (MaxRemain c) /\
   removed ++ items q = map (fun f => GoPath.join [LogPath c; f]) files /\
   List.length (items q) = Nat.min (List.length (map (fun f => GoPath.join [LogPath c; f]) files)) (cap q)) /\
  run 3 {| cap := 2; items := ["a"; "b"] |} (Retry "c") = ({| cap := 2; items := ["b"; "c"] |}, Finished, ["a"]) /\
  step {| cap := 2; items := ["a"] |} (Retry "c") = Some ({| cap := 2; items := ["a"; "c"] |}, Finished, None) /\
  (List.length (items (queue {| queue := {| cap := 1; items := [] |}; removed := []; threads := [Retry "x"] |}))
     <= cap (queue {| queue := {| cap := 1; items := [] |}; removed := []; threads := [Retry "x"] |}) /\
   cap (queue {| queue := {| cap := 1; items := [] |}; removed := []; threads := [Retry "x"] |}) = 1) /\
  (List.length (items (Core.rollingfilech (snd (Core.enqueue 3 (Retry "c") Scenarios.st_idle))))
     <= cap (Core.rollingfilech (snd (Core.enqueue 3 (Retry "c") Scenarios.st_idle))) /\
   cap (Core.rollingfilech (snd (Core.enqueue 3 (Retry "c") Scenarios.st_idle))) =
     cap (Core.rollingfilech Scenarios.st_idle)).
Proof.
  cbv zeta.
  split; [vm_compute; reflexivity|].
  split; [apply (proj1 C6_retention_bounded); vm_compute; reflexivity|].
  split; [exact (proj1 (proj2 (proj2 (proj2 C6_retention_bounded)))
                  {| cap := 2; items := ["a"; "b"] |} "a" ["b"] "c" eq_refl eq_refl)|].
  split; [apply (proj1 (proj2 (proj2 C6_retention_bounded))); cbn; lia|].
  split; [apply (proj1 (proj2 C6_retention_bounded)
                   {| queue := {| cap := 1; items := [] |}; removed := []; threads := [Retry "x"] |});
          [cbn; lia|apply RRefl]|].
  apply (proj1 (proj2 (proj2 (proj2 (proj2 C6_retention_bounded))))). vm_compute. lia.
Defined.

End RetentionClaims.

Module AsyncFacts.
Import Config Core Async.
Local Open Scope list_scope.

Lemma Close_after s : closed s <> 0 -> Close s = Ok (Some ErrClosed, s).
Proof. intros H; unfold Close. apply Z.eqb_neq in H; rewrite H; reflexivity. Qed.

Lemma Write_after s b r s' : closed s <> 0 -> Write s b r s' -> r = (0, Some ErrClosed) /\ s' = s.
Proof. intros H W; inversion W; subst; solve [auto | contradiction]. Qed.

Lemma Close_first s :
  closed s = 0 -> ctx s = Manager.ChanOpen ->
  Close s = Ok (let '(q', c1) := onClose (queue s) (core s) in
                (oracle c1 (SClose (file c1)),
                 {| core := set_trace (trace c1 ++ [SClose (file c1)]) c1; closed := 1;
                    ctx := Manager.ChanClosed; queue := q'; cons := cons s |})).
Proof.
  intros H1 H2; unfold Close. rewrite H1, H2. cbn [Z.eqb Manager.close_chan].
  destruct (onClose (queue s) (core s)) as [q' c1]. reflexivity.
Qed.

Lemma Close_ok_closed s r s' : Close s = Ok (r, s') -> closed s' <> 0.
Proof.
  unfold Close. destruct (closed s =? 0) eqn:E.
  - destruct (Manager.close_chan (ctx s)); [|discriminate].
    destruct (onClose (queue s) (core s)) as [q' c1]. cbn.
    intros H; inversion H; subst; cbn; discriminate.
  - intros H; inversion H; subst. apply Z.eqb_neq in E; exact E.
Qed.

Lemma Close_ok_cons s r s' : Close s = Ok (r, s') -> cons s' = cons s.
Proof.
  unfold Close. destruct (closed s =? 0).
  - destruct (Manager.close_chan (ctx s)); [|discriminate].
    destruct (onClose (queue s) (core s)) as [q' c1]. cbn.
    intros H; inversion H; subst; reflexivity.
  - intros H; inversion H; subst; reflexivity.
Qed.

Lemma astep_after s l s' :
  closed s <> 0 -> astep s l s' ->
  closed s' = closed s /\
  (forall b r, l = LWrite b r -> r = (0, Some ErrClosed)) /\
  (forall r, l = LClose r -> r = Some ErrClosed).
Proof.
  intros Hc St; inversion St as [s0 b r s1 W|s0 r s1 C|s0 s1 Cs|s0 n Hf]; subst.
  - destruct (Write_after _ _ _ _ Hc W) as [-> ->].
    split; [reflexivity|split; [intros b' r' E; inversion E; reflexivity|discriminate]].
  - rewrite (Close_after _ Hc) in C. inversion C; subst.
    split; [reflexivity|split; [discriminate|intros r' E; inversion E; reflexivity]].
  - inversion Cs; subst; cbn; (split; [reflexivity|split; discriminate]).
  - cbn; split; [reflexivity|split; discriminate].
Qed.

Lemma exec_after s ls s' :
  closed s <> 0 -> exec s ls s' ->
  closed s' = closed s /\
  (forall b r, In (LWrite b r) ls -> r = (0, Some ErrClosed)) /\
  (forall r, In (LClose r) ls -> r = Some ErrClosed).
Proof.
  intros Hc X; induction X as [s|s l s1 ls s2 St X IH]; [cbn; tauto|].
  destruct (astep_after _ _ _ Hc St) as (E & HW & HC).
  rewrite <- E in Hc. destruct (IH Hc) as (E2 & HW2 & HC2).
  split; [congruence|split].
  - intros b r [E1|I]; [exact (HW b r E1)|eauto].
  - intros r [E1|I]; [exact (HC r E1)|eauto].
Qed.

Lemma consumer_fail s x q e :
  cons s = CLoop -> queue s = x :: q ->
  oracle (core s) (SWrite (file (core s)) x) = Some e ->
  exists s', consumer_step s s' /\ cons s' = CSendErr e /\ queue s' = q.
Proof.
  intros H1 H2 H3.
  eexists; split; [eapply CTake; [exact H1|exact H2|reflexivity]|].
  cbn. unfold file_write, bind, sys, ret. rewrite H3. split; reflexivity.
Qed.

Lemma consumer_blocked s e s' : cons s = CSendErr e -> ~ consumer_step s s'.
Proof. intros H St; inversion St; congruence. Qed.

Lemma Write_pending_error s b r s' e :
  cons s = CSendErr e -> Write s b r s' ->
  (r = (0, Some e) /\ cons s' = CLoop) \/
  (cons s' = CSendErr e /\ (fire (core s) <> None \/ closed s <> 0)).
Proof.
  intros Hc W; destruct W as [Hcl|e' H0 He|fn e' c' H0 Hf HR|fn c' pieces H0 Hf HR Hp Hn Hq|H0 Hn Hf Hq].
  - right; split; [exact Hc|right; exact Hcl].
  - left. rewrite Hc in He. inversion He; subst. split; reflexivity.
  - right; split; [exact Hc|left; rewrite Hf; discriminate].
  - right; split; [exact Hc|left; rewrite Hf; discriminate].
  - exfalso; exact (Hn e Hc).
Qed.

End AsyncFacts.

Module AsyncClaims.
Import Config Core Async.
Local Open Scope list_scope.

(** C7.  On an [AsynchronousWriter] not yet closed ([closed] 0, [ctx]
    open), [Close] closes [ctx], drains the queue ([onClose]), closes the
    file and returns that result, and sets [closed] to 1.  Once [closed] is
    set, [Close] returns [ErrClosed] and changes nothing, every [Write]
    returns [(0, ErrClosed)] and changes nothing, and in every later
    execution the flag stays set and every [Write] and [Close] fails so. *)
Theorem C7_async_close_once :
  (forall s, closed s = 0 -> ctx s = Manager.ChanOpen ->
     Close s = Ok (let '(q', c1) := onClose (queue s) (core s) in
                   (oracle c1 (SClose (file c1)),
                    {| core := set_trace (trace c1 ++ [SClose (file c1)]) c1; closed := 1;
                       ctx := Manager.ChanClosed; queue := q'; cons := cons s |}))) /\
  (forall s, closed s <> 0 -> Close s = Ok (Some ErrClosed, s)) /\
  (forall s b r s', closed s <> 0 -> Write s b r s' -> r = (0, Some ErrClosed) /\ s' = s) /\
  (forall s r s1 ls s2, Close s = Ok (r, s1) -> exec s1 ls s2 ->
     closed s2 <> 0 /\
     (forall b r', In (LWrite b r') ls -> r' = (0, Some ErrClosed)) /\
     (forall r', In (LClose r') ls -> r' = Some ErrClosed)).
Proof.
  split; [exact AsyncFacts.Close_first|].
  split; [exact AsyncFacts.Close_after|].
  split; [exact AsyncFacts.Write_after|].
  intros s r s1 ls s2 HC X.
  pose proof (AsyncFacts.Close_ok_closed _ _ _ HC) as H1.
  destruct (AsyncFacts.exec_after _ _ _ H1 X) as (E & HW & HCl).
  split; [congruence|split; assumption].
Qed.

Lemma C7_async_close_once_witness :
  exists r s1 s2,
  Close Scenarios.a_disk_full = Ok (r, s1) /\ closed s1 = 1 /\ r = None /\
  exec s1 [LWrite Scenarios.two_bytes (0, Some ErrClosed); LClose (Some ErrClosed)] s2 /\
  (closed s2 <> 0 /\
   (forall b r', In (LWrite b r') [LWrite Scenarios.two_bytes (0, Some ErrClosed); LClose (Some ErrClosed)] ->
      r' = (0, Some ErrClosed)) /\
   (forall r', In (LClose r') [LWrite Scenarios.two_bytes (0, Some ErrClosed); LClose (Some ErrClosed)] ->
      r' = Some ErrClosed)).
Proof.
  pose proof (proj1 C7_async_close_once Scenarios.a_disk_full eq_refl eq_refl) as HC.
  do 3 eexists. split; [exact HC|]. split; [reflexivity|]. split; [reflexivity|].
  match goal with |- exec ?S1 ?LS _ /\ _ =>
    assert (X : exec S1 LS S1) end.
  { eapply ExecCons; [apply StepWrite; apply WClosed; discriminate|].
    eapply ExecCons; [apply StepClose; reflexivity|]. apply ExecNil. }
  split; [exact X|].
  apply (proj2 (proj2 (proj2 C7_async_close_once)) _ _ _ _ _ HC X).
Defined.

(** C8 (corrected).  A failed write of the consumer leaves it blocked
    sending the error on the unbuffered [errChan]; it takes no further
    buffer until a [Write] receives the error.  A [Write] made while the
    error is pending either receives it, returning [(0, err)], which
    unblocks the consumer, or, when a rotation name is pending too (or the
    writer is closed), may return without it, the error staying pending;
    with no rotation pending a [Write] on an open writer always receives
    it.  [Close] returns only the result of closing the file, and leaves
    the consumer blocked with the error. *)
Theorem C8_async_error_relay :
  (forall s x q e, cons s = CLoop -> queue s = x :: q ->
     oracle (core s) (SWrite (file (core s)) x) = Some e ->
     exists s', consumer_step s s' /\ cons s' = CSendErr e /\ queue s' = q) /\
  (forall s e s', cons s = CSendErr e -> ~ consumer_step s s') /\
  (forall s b r s' e, cons s = CSendErr e -> Write s b r s' ->
     (r = (0, Some e) /\ cons s' = CLoop) \/
     (cons s' = CSendErr e /\ (fire (core s) <> None \/ closed s <> 0))) /\
  (forall s b r s' e, cons s = CSendErr e -> closed s = 0 -> fire (core s) = None ->
     Write s b r s' -> r = (0, Some e) /\ cons s' = CLoop) /\
  (forall s e r s', cons s = CSendErr e -> closed s = 0 -> ctx s = Manager.ChanOpen ->
     Close s = Ok (r, s') ->
     r = oracle (snd (onClose (queue s) (core s))) (SClose (file (snd (onClose (queue s) (core s))))) /\
     cons s' = CSendErr e).
Proof.
  split; [exact AsyncFacts.consumer_fail|].
  split; [exact AsyncFacts.consumer_blocked|].
  split; [exact AsyncFacts.Write_pending_error|].
  split.
  - intros s b r s' e Hc H0 Hf W.
    destruct (AsyncFacts.Write_pending_error _ _ _ _ _ Hc W) as [R|[_ [F|F]]];
      [exact R|contradiction|contradiction].
  - intros s e r s' Hc H0 Hx HC.
    pose proof (AsyncFacts.Close_ok_cons _ _ _ HC) as Hs.
    rewrite (AsyncFacts.Close_first _ H0 Hx) in HC.
    destruct (onClose (queue s) (core s)) as [q' c1]. inversion HC; subst.
    split; [reflexivity|congruence].
Qed.

Lemma C8_async_error_relay_witness :
  (exists s', consumer_step (set_queue [Scenarios.two_bytes] Scenarios.a_disk_full) s' /\
              cons s' = CSendErr (ErrIO 28) /\ queue s' = []) /\
  ~ consumer_step Scenarios.a_err_pending Scenarios.a_err_pending /\
  Write Scenarios.a_err_pending Scenarios.two_bytes (0, Some (ErrIO 28))
        (set_cons CLoop Scenarios.a_err_pending) /\
  (((0, Some (ErrIO 28)) : Z * option error) = (0, Some (ErrIO 28)) /\
   cons (set_cons CLoop Scenarios.a_err_pending) = CLoop) /\
  (exists r s', Close Scenarios.a_err_pending = Ok (r, s') /\ r = None /\ cons s' = CSendErr (ErrIO 28)).
Proof.
  split; [apply (proj1 C8_async_error_relay _ Scenarios.two_bytes []); reflexivity|].
  split; [apply (proj1 (proj2 C8_async_error_relay) _ (ErrIO 28)); reflexivity|].
  assert (W : Write Scenarios.a_err_pending Scenarios.two_bytes (0, Some (ErrIO 28))
                (set_cons CLoop Scenarios.a_err_pending)) by (apply WErrChan; reflexivity).
  split; [exact W|].
  split; [exact (proj1 (proj2 (proj2 (proj2 C8_async_error_relay)))
                   Scenarios.a_err_pending Scenarios.two_bytes (0, Some (ErrIO 28))
                   (set_cons CLoop Scenarios.a_err_pending) (ErrIO 28) eq_refl eq_refl eq_refl W)|].
  assert (HC : Close Scenarios.a_err_pending =
           Ok (None, {| core := set_trace [SClose 3] (core Scenarios.a_err_pending); closed := 1;
                        ctx := Manager.ChanClosed; queue := []; cons := CSendErr (ErrIO 28) |}))
    by reflexivity.
  do 2 eexists; split; [exact HC|].
  exact (proj2 (proj2 (proj2 (proj2 C8_async_error_relay))) Scenarios.a_err_pending (ErrIO 28) _ _
           eq_refl eq_refl eq_refl HC).
Defined.

(** C8 counterexample: on a full disk, the consumer fails writing the
    first buffer and blocks relaying [ENOSPC]; a rotation name then
    arrives, and the next [Write]'s [select] takes the rotation: it returns
    [(2, nil)] and the error is still pending, for a later call. *)
Lemma C8_error_skips_next_write :
  exists s2 s4,
    exec Scenarios.a_disk_full [LWrite [Byte.x61] (1, None); LConsumer] s2 /\
    cons s2 = CSendErr (ErrIO 28) /\
    exec s2 [LFire Scenarios.historical; LWrite Scenarios.two_bytes (2, None)] s4 /\
    cons s4 = CSendErr (ErrIO 28) /\
    Write s4 Scenarios.two_bytes (0, Some (ErrIO 28)) (set_cons CLoop s4).
Proof.
  eexists; eexists. split.
  { eapply ExecCons.
    { apply StepWrite. apply WDefault; [reflexivity|intros e H; discriminate|reflexivity|].
      vm_compute; reflexivity. }
    eapply ExecCons; [apply StepConsumer; eapply CTake; [reflexivity|reflexivity|reflexivity]|].
    apply ExecNil. }
  split; [reflexivity|].
  split.
  { eapply ExecCons; [apply StepFire; reflexivity|].
    eapply ExecCons.
    { apply StepWrite.
      eapply (WFire _ Scenarios.two_bytes Scenarios.historical _ [Scenarios.two_bytes]).
      all: try reflexivity.
      - apply Forall_cons; [unfold Scenarios.two_bytes; discriminate|apply Forall_nil].
      - vm_compute. intro H; discriminate H. }
    apply ExecNil. }
  split; [reflexivity|].
  apply WErrChan; reflexivity.
Qed.

End AsyncClaims.

Module OptionsFacts.
Import Config Options.
Local Open Scope string_scope.

Lemma apply_options_cons v vs c :
  apply_options (map to_Option (v :: vs)) c = apply_options (map to_Option vs) (to_Option v c).
Proof. reflexivity. Qed.

Lemma last_set_cons {A} (sets : option_value -> option A) v vs d :
  last_set sets (v :: vs) d = last_set sets vs (match sets v with Some x => x | None => d end).
Proof. reflexivity. Qed.

Lemma field_last {A} (field : Config -> A) (sets : option_value -> option A) :
  (forall v c, field (to_Option v c) = match sets v with Some x => x | None => field c end) ->
  forall vs c, field (apply_options (map to_Option vs) c) = last_set sets vs (field c).
Proof.
  intros Hv vs; induction vs as [|v vs IH]; intros c; [reflexivity|].
  rewrite apply_options_cons, last_set_cons, IH, Hv. reflexivity.
Qed.

(** X1.  After a list of options, [WriterMode] is the mode of the last of
    [WithAsynchronous], [WithLock], [WithBuffer] in the list, and the
    starting mode when there is none: no other option touches it.  For
    [NewWriter] the starting mode is "lock". *)
Theorem X1_writer_mode_last (vs : list option_value) (c : Config) :
  WriterMode (apply_options (map to_Option vs) c) = last_set sets_mode vs (WriterMode c) /\
  WriterMode (NewWriter_config (map to_Option vs)) = last_set sets_mode vs "lock".
Proof.
  assert (H := field_last WriterMode sets_mode ltac:(intros [] c'; reflexivity)).
  split; [apply H|unfold NewWriter_config; apply H].
Qed.

(** X2.  After a list of options, [RollingPolicy] is the policy of the
    last of [WithoutRollingPolicy], [WithRollingTimePattern],
    [WithRollingVolumeSize]; [RollingTimePattern] is the pattern of the
    last [WithRollingTimePattern] and [RollingVolumeSize] the size of the
    last [WithRollingVolumeSize], whatever policy options come after them:
    selecting a policy never resets the other policy's parameter. *)
Theorem X2_rolling_policy_last (vs : list option_value) (c : Config) :
  RollingPolicy (apply_options (map to_Option vs) c) = last_set sets_policy vs (RollingPolicy c) /\
  RollingTimePattern (apply_options (map to_Option vs) c) = last_set sets_pattern vs (RollingTimePattern c) /\
  RollingVolumeSize (apply_options (map to_Option vs) c) = last_set sets_volume vs (RollingVolumeSize c).
Proof.
  split; [|split]; apply field_last; intros [] c'; reflexivity.
Qed.

End OptionsFacts.

Module ConstructFacts.
Import Config Core Construct.
Local Open Scope string_scope.
Local Open Scope list_scope.

Lemma core_removes_app a b : core_removes (a ++ b) = core_removes a ++ core_removes b.
Proof. induction a as [|k a IH]; [reflexivity|destruct k; cbn; rewrite ?IH; reflexivity]. Qed.


Lemma enqueue_run fuel p s :
  let s' := snd (enqueue fuel p s) in
  rollingfilech s' = fst (fst (Retention.run fuel (rollingfilech s) p)) /\
  core_removes (trace s') = core_removes (trace s) ++ snd (Retention.run fuel (rollingfilech s) p) /\
  (exists added, trace s' = trace s ++ added /\ Forall quiet added) /\
  file s' = file s /\ absPath s' = absPath s /\ cf s' = cf s /\ buf s' = buf s /\
  next_fd s' = next_fd s /\ oracle s' = oracle s.
Proof.
  revert p s; induction fuel as [|f IH]; intros p s.
  { cbn. rewrite app_nil_r. repeat split; try reflexivity. exists []; rewrite app_nil_r; auto. }
  cbn [enqueue Retention.run bind get modify ret].
  destruct (Retention.step (rollingfilech s) p) as [[[q' p'] r]|] eqn:E.
  2: { cbn. rewrite app_nil_r. repeat split; try reflexivity. exists []; rewrite app_nil_r; auto. }
  destruct r as [x|]; unfold bind, sys, log, ret, set_rq, set_trace, mk; cbn;
    [match goal with |- context [oracle ?S (SRemove x)] => destruct (oracle S (SRemove x)) end; unfold bind, sys, log, ret, set_trace, mk; cbn|].
  all: match goal with |- context [enqueue _ ?P ?S] =>
         destruct (IH P S) as (I1 & I2 & (ad & I3 & I4) & I5 & I6 & I7 & I8 & I9 & I10) end;
       cbn [rollingfilech trace] in *; destruct (Retention.run f q' p') as [[q'' p''] rs]; cbn in *.
  all: repeat split; try congruence.
  all: first
    [ rewrite I2, ?core_removes_app; cbn; rewrite <- ?app_assoc; reflexivity
    | eexists; split; [rewrite I3, <- ?app_assoc; reflexivity|];
      repeat (apply Forall_cons; [eexists; eauto|]); exact I4 ].
Qed.

Lemma trim_files_run dir files s :
  let s' := snd (trim_files dir files s) in
  rollingfilech s' = fst (Retention.trim (rollingfilech s) (map (fun f => GoPath.join [dir; f]) files)) /\
  core_removes (trace s') =
    core_removes (trace s) ++ snd (Retention.trim (rollingfilech s) (map (fun f => GoPath.join [dir; f]) files)) /\
  (exists added, trace s' = trace s ++ added /\ Forall quiet added) /\
  file s' = file s /\ absPath s' = absPath s /\ cf s' = cf s /\ buf s' = buf s /\
  next_fd s' = next_fd s /\ oracle s' = oracle s.
Proof.
  revert s; induction files as [|f fs IH]; intros s.
  { cbn. rewrite app_nil_r. repeat split; try reflexivity. exists []; rewrite app_nil_r; auto. }
  cbn [trim_files map Retention.trim]. unfold bind.
  pose proof (enqueue_run 3 (Retention.Retry (GoPath.join [dir; f])) s) as
    (E1 & E2 & (a1 & E3 & E4) & E5 & E6 & E7 & E8 & E9 & E10).
  destruct (enqueue 3 _ s) as [u s1]. cbn [snd] in *.
  destruct (Retention.run 3 _ _) as [[q1 p1] r1]. cbn [fst snd] in *.
  destruct (IH s1) as (F1 & F2 & (a2 & F3 & F4) & F5 & F6 & F7 & F8 & F9 & F10).
  rewrite E1 in F1, F2.
  destruct (Retention.trim q1 _) as [q2 r2]. cbn [fst snd] in *.
  repeat split; try congruence.
  - rewrite F2, E2, app_assoc; reflexivity.
  - exists (a1 ++ a2); split; [rewrite F3, E3, app_assoc; reflexivity|apply Forall_app; auto].
Qed.

Lemma nonempty_args c :
  LogPath c <> "" -> FileName c <> "" -> (String.eqb (LogPath c) "" || String.eqb (FileName c) "") = false.
Proof.
  intros H1 H2. apply orb_false_intro; apply String.eqb_neq; assumption.
Qed.

Lemma NWFC_open E c o :
  LogPath c <> "" -> FileName c <> "" ->
  answer o (IMkdirAll (LogPath c)) = None ->
  answer o (ICore (SOpen (LogFilePath c))) = None ->
  let o3 := {| calls := calls o ++ [IMkdirAll (LogPath c); ICore (SOpen (LogFilePath c))];
               fd_next := S (fd_next o); answer := answer o |} in
  NewWriterFromConfig E c o =
    match Manager.NewManager (now E) (cron_accepts E) c with
    | None => (Ok (inr (CErrCron (RollingTimePattern c))), o3)
    | Some _ =>
        let s0 := mk (fd_next o) (LogFilePath c) c (Retention.make_rq (MaxRemain c)) [] 0 false None []
                     (S (fd_next o)) (fun k => answer o (ICore k)) [] in
        if (0 <? MaxRemain c)%Z then
          if negb (makechan_ok (MaxRemain c)) then
            (Panic "makechan: size out of range", o3)
          else
          let '(e4, o4) := os_call (IReadDir (LogPath c)) o3 in
          match e4 with
          | Some e => (Ok (inr (CErr e)), o4)
          | None =>
              let s1 := snd (trim_files (LogPath c) (historical_files E c) s0) in
              (select_mode c s1, with_core_calls o4 s1)
          end
        else (select_mode c s0, o3)
    end.
Proof.
  intros H1 H2 Hm Ho. unfold NewWriterFromConfig. rewrite (nonempty_args c H1 H2).
  unfold os_call at 1. rewrite Hm. cbn [calls fd_next answer].
  unfold os_call at 1. cbn [calls fd_next answer]. rewrite Ho.
  rewrite <- app_assoc. reflexivity.
Qed.

Lemma quiet_no_close a fd : Forall quiet a -> ~ In (ICore (SClose fd)) (map ICore a).
Proof.
  intros Hq Hin. apply in_map_iff in Hin as (k & Ek & Hk).
  rewrite Forall_forall in Hq. destruct (Hq k Hk) as (x & [-> | ->]); discriminate.
Qed.

Lemma select_mode_ok c s :
  In (WriterMode c) ["none"; "lock"; "async"] \/
  (WriterMode c = "buffer" /\ makeslice_ok (GoInt.wrap64 (BufferWriterThreshold c * 2)) = true) ->
  exists w, select_mode c s = Ok (inl w) /\ mode_name w = WriterMode c /\ rw_state w = s.
Proof.
  unfold select_mode; intros [H|[H Hb]].
  - destruct H as [H|[H|[H|[]]]]; rewrite <- H; eexists; (split; [reflexivity|split; reflexivity]).
  - rewrite H, Hb. eexists; split; [reflexivity|split; reflexivity].
Qed.


Lemma has_prefix_app x y : GoString.has_prefix x (x ++ y) = true.
Proof. induction x as [|a x IH]; cbn; [reflexivity|rewrite Ascii.eqb_refl; exact IH]. Qed.

Lemma list_ascii_app x y : list_ascii_of_string (x ++ y) = list_ascii_of_string x ++ list_ascii_of_string y.
Proof. induction x as [|a x IH]; cbn; [reflexivity|now rewrite IH]. Qed.

Lemma append_empty t : (t ++ "")%string = t.
Proof. induction t as [|a t IH]; cbn; [reflexivity|now rewrite IH]. Qed.

Lemma append_assoc x y z : ((x ++ y) ++ z)%string = (x ++ y ++ z)%string.
Proof. induction x as [|a x IH]; cbn; [reflexivity|now rewrite IH]. Qed.

Lemma ext_rev_plain t r acc :
  plain t = true ->
  ext_rev (rev (list_ascii_of_string t) ++ r) acc = ext_rev r (t ++ acc).
Proof.
  revert r acc; induction t as [|a t IH]; intros r acc Hp; [reflexivity|].
  cbn [plain] in Hp. apply andb_prop in Hp as [Ha Hp]. apply andb_prop in Ha as [Hd Hs].
  apply negb_true_iff in Hd, Hs.
  cbn [list_ascii_of_string rev]. rewrite <- app_assoc. rewrite (IH _ _ Hp). cbn [app ext_rev].
  rewrite Hs, Hd. reflexivity.
Qed.

Lemma ext_tag x tag : plain tag = true -> ext (x ++ "." ++ tag) = ("." ++ tag)%string.
Proof.
  intros Hp. unfold ext. rewrite !list_ascii_app. rewrite rev_app_distr.
  rewrite rev_app_distr, <- app_assoc, (ext_rev_plain tag _ "" Hp). cbn.
  rewrite append_empty. reflexivity.
Qed.

Lemma substring_all t : substring 0 (String.length t) t = t.
Proof. induction t as [|a t IH]; cbn; [reflexivity|now rewrite IH]. Qed.

Lemma contains_this p sub rest : GoString.contains (p ++ sub ++ rest) sub = true.
Proof.
  apply SizeFacts.contains_app_r. pose proof (has_prefix_app sub rest) as H.
  destruct sub as [|a sub']; [destruct rest; reflexivity|].
  cbn [append] in H |- *. cbn [GoString.contains]. rewrite H. reflexivity.
Qed.

Lemma is_historical_tag parse c p q tag :
  tag <> "" -> plain tag = true -> parse (TimeTagFormat c) tag <> None ->
  is_historical parse c ((p ++ FileName c ++ ".log" ++ q ++ "." ++ tag)%string, false) = true.
Proof.
  intros Hn Hp Hparse. unfold is_historical.
  replace (p ++ FileName c ++ ".log" ++ q ++ "." ++ tag)%string
    with (p ++ (FileName c ++ ".log") ++ (q ++ "." ++ tag))%string
    by (rewrite <- !append_assoc; reflexivity).
  rewrite contains_this.
  replace (p ++ (FileName c ++ ".log") ++ (q ++ "." ++ tag))%string
    with ((p ++ (FileName c ++ ".log") ++ q) ++ "." ++ tag)%string
    by (rewrite <- !append_assoc; reflexivity).
  rewrite (ext_tag _ _ Hp). cbn [String.length append].
  destruct tag as [|a t]; [contradiction|]. cbn [String.length].
  replace (S (S (String.length t)) - 1)%nat with (S (String.length t)) by lia.
  cbn [Nat.ltb Nat.leb]. cbn [substring].
  change (S (String.length t)) with (String.length (String a t)). rewrite substring_all.
  destruct (parse (TimeTagFormat c) (String a t)); [reflexivity|contradiction].
Qed.

End ConstructFacts.

Module ConstructExtras.
Import Config Core Construct ConstructFacts.
Local Open Scope string_scope.
Local Open Scope list_scope.

(** X3.  [NewWriterFromConfig] with an empty [LogPath] or [FileName]
    returns [ErrInvalidArgument] and makes no call to the OS. *)
Theorem X3_invalid_argument (E : env) (c : Config) (o : os) :
  LogPath c = "" \/ FileName c = "" ->
  NewWriterFromConfig E c o = (Ok (inr (CErr ErrInvalidArgument)), o).
Proof.
  intros [H|H]; unfold NewWriterFromConfig; rewrite H; [reflexivity|].
  rewrite orb_true_r. reflexivity.
Qed.

Lemma X3_invalid_argument_witness :
  NewWriterFromConfig Fixtures.env0 (Options.WithLogPath "" NewDefaultConfig) Fixtures.os_ok =
    (Ok (inr (CErr ErrInvalidArgument)), Fixtures.os_ok).
Proof. apply X3_invalid_argument. left; reflexivity. Defined.

(** X4.  Once the directory is created and the active file opened,
    [NewWriterFromConfig] never closes a file, whatever it returns: on its
    later error returns (a pattern the cron library rejects, a failing
    [ReadDir], an unknown [WriterMode]) and its panics the opened file is
    left open. *)
Theorem X4_open_file_never_closed (E : env) (c : Config) (o : os) :
  LogPath c <> "" -> FileName c <> "" ->
  answer o (IMkdirAll (LogPath c)) = None ->
  answer o (ICore (SOpen (LogFilePath c))) = None ->
  exists added, calls (snd (NewWriterFromConfig E c o)) = calls o ++ added /\
    In (ICore (SOpen (LogFilePath c))) added /\
    forall fd, ~ In (ICore (SClose fd)) added.
Proof.
  intros H1 H2 Hm Ho. rewrite (NWFC_open E c o H1 H2 Hm Ho).
  destruct (Manager.NewManager _ _ _) as [m|].
  2: { eexists; split; [reflexivity|]. split; [cbn; auto|].
       intros fd [E1|[E1|[]]]; discriminate. }
  destruct (0 <? MaxRemain c)%Z.
  2: { eexists; split; [reflexivity|]. split; [cbn; auto|].
       intros fd [E1|[E1|[]]]; discriminate. }
  destruct (negb (makechan_ok (MaxRemain c))).
  { eexists; split; [reflexivity|]. split; [cbn; auto|].
    intros fd [E1|[E1|[]]]; discriminate. }
  unfold os_call. cbn [calls fd_next answer].
  destruct (answer o (IReadDir (LogPath c))).
  { eexists; split; [cbn [snd calls]; rewrite <- app_assoc; reflexivity|]. split; [cbn; auto|].
    intros fd [E1|[E1|[E1|[]]]]; discriminate. }
  match goal with |- context [snd (trim_files ?d ?fs ?s)] =>
    destruct (trim_files_run d fs s) as (_ & _ & (ad & T & Q) & _) end.
  cbn [snd]. unfold with_core_calls. cbn [calls]. rewrite T.
  exists ([IMkdirAll (LogPath c); ICore (SOpen (LogFilePath c)); IReadDir (LogPath c)] ++ map ICore ad).
  split; [rewrite <- !app_assoc; reflexivity|]. split; [cbn; auto|].
  intros fd Hin. destruct Hin as [E1|[E1|[E1|Hin]]]; try discriminate.
  exact (quiet_no_close ad fd Q Hin).
Qed.

Lemma X4_open_file_never_closed_witness :
  exists added,
    calls (snd (NewWriterFromConfig Fixtures.env0 (Fixtures.cfg "bogus" 64) Fixtures.os_ok)) =
      calls Fixtures.os_ok ++ added /\
    In (ICore (SOpen (LogFilePath (Fixtures.cfg "bogus" 64)))) added /\
    forall fd, ~ In (ICore (SClose fd)) added.
Proof. apply X4_open_file_never_closed; (discriminate || reflexivity). Defined.

(** X5.  When every OS call succeeds, the manager starts and the mode is
    one of "none", "lock", "async", or "buffer" with an allocatable
    buffer, and with [MaxRemain > 0] the retention channel can be made,
    [NewWriterFromConfig] returns the [RollingWriter] of that
    mode, writing to the descriptor it opened on [LogFilePath c].  With
    [MaxRemain > 0] its retention queue and the files it removed are those
    of the trim ([Retention.trim_dir]) of the historical files found in
    [LogPath], in the order [sort.Slice] gives; otherwise it made no call
    at all. *)
Theorem X5_success (E : env) (c : Config) (o : os) (m : Manager.manager) :
  LogPath c <> "" -> FileName c <> "" ->
  answer o (IMkdirAll (LogPath c)) = None ->
  answer o (ICore (SOpen (LogFilePath c))) = None ->
  Manager.NewManager (now E) (cron_accepts E) c = Some m ->
  ((0 < MaxRemain c)%Z -> answer o (IReadDir (LogPath c)) = None) ->
  ((0 < MaxRemain c)%Z -> makechan_ok (MaxRemain c) = true) ->
  In (WriterMode c) ["none"; "lock"; "async"] \/
  (WriterMode c = "buffer" /\ makeslice_ok (GoInt.wrap64 (BufferWriterThreshold c * 2)) = true) ->
  exists w, fst (NewWriterFromConfig E c o) = Ok (inl w) /\ mode_name w = WriterMode c /\
    file (rw_state w) = fd_next o /\ absPath (rw_state w) = LogFilePath c /\ cf (rw_state w) = c /\
    ((0 < MaxRemain c)%Z ->
       (rollingfilech (rw_state w), core_removes (trace (rw_state w))) =
         Retention.trim_dir c (historical_files E c)) /\
    ((MaxRemain c <= 0)%Z -> trace (rw_state w) = []).
Proof.
  intros H1 H2 Hm Ho Hn Hr Hk Hmode. rewrite (NWFC_open E c o H1 H2 Hm Ho), Hn.
  destruct (0 <? MaxRemain c)%Z eqn:Hpos.
  - apply Z.ltb_lt in Hpos. rewrite (Hk Hpos). cbn [negb]. unfold os_call. cbn [calls fd_next answer]. rewrite (Hr Hpos).
    match goal with |- context [snd (trim_files ?d ?fs ?s)] =>
      destruct (trim_files_run d fs s) as (T1 & T2 & _ & T5 & T6 & T7 & _) end.
    destruct (select_mode_ok c (snd (trim_files (LogPath c) (historical_files E c)
      (mk (fd_next o) (LogFilePath c) c (Retention.make_rq (MaxRemain c)) [] 0 false None []
          (S (fd_next o)) (fun k => answer o (ICore k)) [])))) as (w & Ew & Mw & Sw); [exact Hmode|].
    exists w. cbn [fst]. rewrite Ew, Sw, T1, T2, T5, T6, T7.
    unfold mk; cbn [file absPath cf rollingfilech trace core_removes app].
    split; [reflexivity|split; [exact Mw|split; [reflexivity|split; [reflexivity|split; [reflexivity|]]]]].
    split; [|intros; lia].
    intros _. unfold Retention.trim_dir. destruct (Retention.trim _ _); reflexivity.
  - destruct (select_mode_ok c (mk (fd_next o) (LogFilePath c) c (Retention.make_rq (MaxRemain c)) [] 0 false None []
          (S (fd_next o)) (fun k => answer o (ICore k)) [])) as (w & Ew & Mw & Sw); [exact Hmode|].
    exists w. cbn [fst]. rewrite Ew, Sw. cbn.
    split; [reflexivity|split; [exact Mw|split; [reflexivity|split; [reflexivity|split; [reflexivity|]]]]].
    split; [|reflexivity]. intros Hp. apply Z.ltb_ge in Hpos. lia.
Qed.

Lemma X5_success_witness :
  exists w, fst (NewWriterFromConfig Fixtures.env0 (Fixtures.cfg "async" 64) Fixtures.os_ok) = Ok (inl w) /\
    mode_name w = "async" /\ file (rw_state w) = 3%nat /\
    absPath (rw_state w) = LogFilePath (Fixtures.cfg "async" 64) /\ cf (rw_state w) = Fixtures.cfg "async" 64 /\
    ((0 < MaxRemain (Fixtures.cfg "async" 64))%Z ->
       (rollingfilech (rw_state w), core_removes (trace (rw_state w))) =
         Retention.trim_dir (Fixtures.cfg "async" 64) (historical_files Fixtures.env0 (Fixtures.cfg "async" 64))) /\
    ((MaxRemain (Fixtures.cfg "async" 64) <= 0)%Z -> trace (rw_state w) = []).
Proof.
  apply (X5_success Fixtures.env0 (Fixtures.cfg "async" 64) Fixtures.os_ok
           {| Manager.thresholdSize := 104857600; Manager.startAt := 0;
              Manager.context := Manager.ChanOpen; Manager.cron_running := false |});
    try (discriminate || reflexivity).
  all: first [intros _; reflexivity | left; cbn; auto].
Defined.

(** X6.  With [MaxRemain <= 0] the constructor neither lists the
    directory nor removes anything: its only calls are [MkdirAll] and the
    open of the active file. *)
Theorem X6_no_retention_no_listing (E : env) (c : Config) (o : os) (m : Manager.manager) :
  LogPath c <> "" -> FileName c <> "" ->
  answer o (IMkdirAll (LogPath c)) = None ->
  answer o (ICore (SOpen (LogFilePath c))) = None ->
  Manager.NewManager (now E) (cron_accepts E) c = Some m ->
  (MaxRemain c <= 0)%Z ->
  snd (NewWriterFromConfig E c o) =
    {| calls := calls o ++ [IMkdirAll (LogPath c); ICore (SOpen (LogFilePath c))];
       fd_next := S (fd_next o); answer := answer o |}.
Proof.
  intros H1 H2 Hm Ho Hn Hle. rewrite (NWFC_open E c o H1 H2 Hm Ho), Hn.
  replace (0 <? MaxRemain c)%Z with false by (symmetry; apply Z.ltb_ge; exact Hle).
  reflexivity.
Qed.

Lemma X6_no_retention_no_listing_witness :
  snd (NewWriterFromConfig Fixtures.env0 NewDefaultConfig Fixtures.os_ok) =
    {| calls := [IMkdirAll "./log"; ICore (SOpen (LogFilePath NewDefaultConfig))];
       fd_next := 4; answer := answer Fixtures.os_ok |}.
Proof.
  apply (X6_no_retention_no_listing Fixtures.env0 NewDefaultConfig Fixtures.os_ok
           {| Manager.thresholdSize := 0; Manager.startAt := 0;
              Manager.context := Manager.ChanOpen; Manager.cron_running := true |});
    (discriminate || reflexivity || (cbn; lia)).
Defined.

(** X7.  The directory scan of [NewWriterFromConfig] takes as historical
    every regular file whose name contains [FileName ++ ".log"] anywhere
    and ends in a dot and a tag that [time.Parse] accepts: besides the
    logger's own historical files ([p] and [q] empty, or [q] = ".gz") it
    also takes files of other loggers in the same directory such as
    "myapp.log.<tag>" for [FileName] "app", which the trim may then
    remove. *)
Theorem X7_foreign_files_selected parse (c : Config) (p q tag : string) :
  tag <> "" -> plain tag = true -> parse (TimeTagFormat c) tag <> None ->
  is_historical parse c ((p ++ FileName c ++ ".log" ++ q ++ "." ++ tag)%string, false) = true.
Proof. exact (is_historical_tag parse c p q tag). Qed.

Lemma X7_foreign_files_selected_witness :
  is_historical (parse Fixtures.env0) (Fixtures.cfg "lock" 64)
    (("my" ++ FileName (Fixtures.cfg "lock" 64) ++ ".log" ++ "" ++ "." ++ "202401020000")%string, false) = true.
Proof. apply X7_foreign_files_selected; [discriminate|reflexivity|vm_compute; discriminate]. Defined.



(** X24.  With [MaxRemain > 0] too large for [make(chan string,
    MaxRemain)] (more than [(2^48 - 104) / 16] elements), the constructor
    panics with "makechan: size out of range" right after opening the
    active file, whatever the [WriterMode]: before listing the directory,
    trimming, or making a buffer, and without closing the file. *)
Theorem X24_retention_chan_panics (E : env) (c : Config) (o : os) (m : Manager.manager) :
  LogPath c <> "" -> FileName c <> "" ->
  answer o (IMkdirAll (LogPath c)) = None ->
  answer o (ICore (SOpen (LogFilePath c))) = None ->
  Manager.NewManager (now E) (cron_accepts E) c = Some m ->
  (0 < MaxRemain c)%Z -> makechan_ok (MaxRemain c) = false ->
  NewWriterFromConfig E c o =
    (Panic "makechan: size out of range",
     {| calls := calls o ++ [IMkdirAll (LogPath c); ICore (SOpen (LogFilePath c))];
        fd_next := S (fd_next o); answer := answer o |}).
Proof.
  intros H1 H2 Hm Ho Hn Hpos Hk. rewrite (NWFC_open E c o H1 H2 Hm Ho), Hn.
  replace (0 <? MaxRemain c)%Z with true by (symmetry; apply Z.ltb_lt; exact Hpos).
  rewrite Hk. reflexivity.
Qed.

Lemma X24_retention_chan_panics_witness :
  NewWriterFromConfig Fixtures.env0 (Options.WithMaxRemain (2 ^ 50) (Fixtures.cfg "buffer" (2 ^ 62)))
    Fixtures.os_ok =
    (Panic "makechan: size out of range",
     {| calls := [IMkdirAll "/var/log/app"; ICore (SOpen "/var/log/app/app.log")];
        fd_next := 4; answer := answer Fixtures.os_ok |}).
Proof.
  apply (X24_retention_chan_panics Fixtures.env0
           (Options.WithMaxRemain (2 ^ 50) (Fixtures.cfg "buffer" (2 ^ 62))) Fixtures.os_ok
           {| Manager.thresholdSize := 104857600; Manager.startAt := 0;
              Manager.context := Manager.ChanOpen; Manager.cron_running := false |});
    (discriminate || reflexivity || (cbn; lia)).
Defined.

End ConstructExtras.

Module CloseExtras.
Import Config Core Closers.
Local Open Scope list_scope.




End CloseExtras.

Module BackgroundFacts.
Import Config Core.
Local Open Scope list_scope.

Lemma sys_ext k s : exists t, trace (snd (sys k s)) = trace s ++ t.
Proof. exists [k]; reflexivity. Qed.

Lemma bind_ext {A B} (m : M A) (f : A -> M B) :
  (forall s, exists t, trace (snd (m s)) = trace s ++ t) ->
  (forall a s, exists t, trace (snd (f a s)) = trace s ++ t) ->
  forall s, exists t, trace (snd (bind m f s)) = trace s ++ t.
Proof.
  intros Hm Hf s. unfold bind. destruct (Hm s) as [t1 E1]. destruct (m s) as [a s1].
  destruct (Hf a s1) as [t2 E2]. exists (t1 ++ t2). cbn [snd] in E1. rewrite E2, E1, app_assoc. reflexivity.
Qed.

Lemma ret_ext {A} (a : A) s : exists t, trace (snd (ret a s)) = trace s ++ t.
Proof. exists []; rewrite app_nil_r; reflexivity. Qed.

Lemma get_ext s : exists t, trace (snd (get s)) = trace s ++ t.
Proof. exists []; rewrite app_nil_r; reflexivity. Qed.

Lemma log_ext msg s : exists t, trace (snd (log msg s)) = trace s ++ t.
Proof. exists [SLog msg]; reflexivity. Qed.

Lemma os_open_ext p s : exists t, trace (snd (os_open p s)) = trace s ++ t.
Proof. exists [SOpen p]. unfold os_open. destruct (oracle s (SOpen p)); reflexivity. Qed.

Lemma enqueue_ext fuel p s : exists t, trace (snd (enqueue fuel p s)) = trace s ++ t.
Proof.
  destruct (ConstructFacts.enqueue_run fuel p s) as (_ & _ & (t & T & _) & _). exists t; exact T.
Qed.

Ltac ext_auto :=
  repeat first
    [ apply bind_ext; [|intros ? ?]
    | apply sys_ext | apply ret_ext | apply get_ext | apply log_ext | apply os_open_ext
    | apply enqueue_ext
    | match goal with
      | |- forall _, _ => intros ?
      | |- exists t, trace (snd (match ?x with _ => _ end _)) = _ => destruct x
      | |- exists t, trace (snd ((if ?x then _ else _) _)) = _ => destruct x
      end ].

Lemma CompressFile_ext old cmp s : exists t, trace (snd (CompressFile old cmp s)) = trace s ++ t.
Proof. revert s; unfold CompressFile. ext_auto. Qed.

Lemma bind_last {A B} (m : M A) (f : A -> M B) k :
  (forall s, exists t, trace (snd (m s)) = trace s ++ t) ->
  (forall a s, exists pre, trace (snd (f a s)) = trace s ++ pre ++ [k]) ->
  forall s, exists pre, trace (snd (bind m f s)) = trace s ++ pre ++ [k].
Proof.
  intros Hm Hf s. unfold bind. destruct (Hm s) as [t1 E1]. destruct (m s) as [a s1].
  destruct (Hf a s1) as [t2 E2]. exists (t1 ++ t2). cbn [snd] in E1. rewrite E2, E1, !app_assoc. reflexivity.
Qed.

Lemma reopen_bg_last old f s :
  exists pre, trace (snd (reopen_bg old f s)) = trace s ++ pre ++ [SClose old].
Proof.
  revert s. unfold reopen_bg.
  apply bind_last; [apply get_ext|intros s0].
  apply bind_last; [ext_auto|intros cont].
  apply bind_last; [ext_auto|intros u].
  intros s1. exists []. reflexivity.
Qed.

End BackgroundFacts.

Module BackgroundExtras.
Import Config Core.
Local Open Scope string_scope.
Local Open Scope list_scope.

Local Ltac red_b := unfold reopen_bg, CompressFile, os_open, sys, log, bind, get, ret,
  set_trace, set_next_fd, mk; cbv beta iota zeta; cbn.

(** X12.  The goroutine of [Reopen] ends, whatever happens before, with
    the deferred [Close] of the previous file handle as its last OS
    call. *)
Theorem X12_reopen_bg_closes_old_last (oldfile : nat) (file : string) (s : state) :
  exists pre, trace (snd (reopen_bg oldfile file s)) = trace s ++ pre ++ [SClose oldfile].
Proof. exact (BackgroundFacts.reopen_bg_last oldfile file s). Qed.

(** X13.  With compression on, when [io.Copy] into the gzip stream
    fails, the goroutine removes the half-written compressed file
    [file], logs, skips the retention queue, and never removes
    [file ++ ".tmp"]: the renamed uncompressed data stays on disk under a
    name no retention ever deletes. *)
Theorem X13_copy_failure_keeps_tmp (oldfile : nat) (file : string) (s : state) (e : error) :
  Compress (cf s) = true ->
  oracle s (SRename file (file ++ ".tmp")) = None ->
  oracle s (SOpen file) = None ->
  oracle s (SSeek oldfile) = None ->
  oracle s (SGzipCopy oldfile (next_fd s)) = Some e ->
  let s' := snd (reopen_bg oldfile file s) in
  trace s' = trace s ++
    [SRename file (file ++ ".tmp"); SOpen file; SSeek oldfile; SGzipCopy oldfile (next_fd s);
     SRemove file; SGzipClose (next_fd s); SClose (next_fd s);
     SLog "error in compress log file"; SClose oldfile] /\
  rollingfilech s' = rollingfilech s.
Proof.
  intros Hc Hr Ho Hs Hg. red_b. rewrite Hc. red_b. rewrite Hr. red_b. rewrite Ho. red_b.
  rewrite Hs. red_b. rewrite Hg. red_b.
  destruct (oracle s (SRemove file)); red_b; rewrite <- !app_assoc; split; reflexivity.
Qed.

Lemma X13_copy_failure_keeps_tmp_witness :
  trace (snd (reopen_bg 2 Scenarios.historical (Fixtures.st_compress Fixtures.copy_fails))) =
    trace (Fixtures.st_compress Fixtures.copy_fails) ++
    [SRename Scenarios.historical (Scenarios.historical ++ ".tmp"); SOpen Scenarios.historical; SSeek 2;
     SGzipCopy 2 4; SRemove Scenarios.historical; SGzipClose 4; SClose 4;
     SLog "error in compress log file"; SClose 2] /\
  rollingfilech (snd (reopen_bg 2 Scenarios.historical (Fixtures.st_compress Fixtures.copy_fails))) =
    rollingfilech (Fixtures.st_compress Fixtures.copy_fails).
Proof.
  exact (X13_copy_failure_keeps_tmp 2 Scenarios.historical (Fixtures.st_compress Fixtures.copy_fails)
           (ErrIO 28) eq_refl eq_refl eq_refl eq_refl eq_refl).
Defined.

(** X14.  When the copy into the gzip stream succeeds, [CompressFile]
    removes [cmpname ++ ".tmp"] before the deferred [gw.Close] flushes the
    compressed stream and before the compressed file is closed, and its
    result is that of the removal alone: an error of [gw.Close] or of
    [cmpfile.Close] is never returned. *)
Theorem X14_compress_ignores_close_errors (oldfile : nat) (cmpname : string) (s : state) :
  oracle s (SOpen cmpname) = None ->
  oracle s (SSeek oldfile) = None ->
  oracle s (SGzipCopy oldfile (next_fd s)) = None ->
  let '(r, s') := CompressFile oldfile cmpname s in
  r = oracle s (SRemove (cmpname ++ ".tmp")) /\
  trace s' = trace s ++
    [SOpen cmpname; SSeek oldfile; SGzipCopy oldfile (next_fd s); SRemove (cmpname ++ ".tmp");
     SGzipClose (next_fd s); SClose (next_fd s)].
Proof.
  intros Ho Hs Hg. red_b. rewrite Ho. red_b. rewrite Hs. red_b. rewrite Hg. red_b.
  rewrite <- !app_assoc. split; reflexivity.
Qed.

Lemma X14_compress_ignores_close_errors_witness :
  let '(r, s') := CompressFile 2 Scenarios.historical (Fixtures.st_compress (fun _ => None)) in
  r = None /\
  trace s' = [SOpen Scenarios.historical; SSeek 2; SGzipCopy 2 4; SRemove (Scenarios.historical ++ ".tmp");
              SGzipClose 4; SClose 4].
Proof.
  exact (X14_compress_ignores_close_errors 2 Scenarios.historical (Fixtures.st_compress (fun _ => None))
           eq_refl eq_refl eq_refl).
Defined.

End BackgroundExtras.

Module ManagerExtras.
Import Config GoString Manager SizeSyntax.
Local Open Scope string_scope.

Lemma wrap64_high z : 2 ^ 63 <= z < 2 ^ 64 -> GoInt.wrap64 z = z - 2 ^ 64.
Proof.
  intros H. unfold GoInt.wrap64. rewrite Z.mod_small by lia.
  replace (z >=? 2 ^ 63) with true by (symmetry; apply Z.geb_le; lia). reflexivity.
Qed.

(** X15.  [ParseVolume] multiplies in 64-bit [int] arithmetic: a size
    whose value in bytes lies between 2^63 and 2^64 (for instance
    "8388608T", that is 2^23 TiB) wraps around to a negative threshold. *)
Theorem X15_parse_volume_wraps (d u : string) :
  all_digits d = true -> (0 < String.length d < 19)%nat ->
  In u ["K"; "M"; "G"; "T"; "KB"; "MB"; "GB"; "TB"] ->
  2 ^ 63 <= dec_value d * times1024 (unit_steps u) 1 < 2 ^ 64 ->
  ParseVolume_size (d ++ u) = dec_value d * times1024 (unit_steps u) 1 - 2 ^ 64 /\
  ParseVolume_size (d ++ u) < 0.
Proof.
  intros Hd Hl Hu Hr. rewrite (SizeFacts.pv_digits_unit d u Hd Hl Hu), (wrap64_high _ Hr).
  split; [reflexivity|lia].
Qed.

Lemma X15_parse_volume_wraps_witness :
  ParseVolume_size ("8388608" ++ "T") = dec_value "8388608" * times1024 (unit_steps "T") 1 - 2 ^ 64 /\
  ParseVolume_size ("8388608" ++ "T") < 0.
Proof.
  apply X15_parse_volume_wraps; [reflexivity|cbn; lia|cbn; tauto|split; vm_compute; congruence].
Defined.

(** X16.  Under [VolumeRolling] with a [RollingVolumeSize] that
    [ParseVolume] reads as negative, every tick of the poller at which
    [os.Open] and [Stat] succeed fires a rotation, even for an empty active
    file: the name sent is the one [GenLogFileName] generates. *)
Theorem X16_negative_threshold_fires (now t : time) (cron_accepts : string -> bool)
    (format : time -> string -> string) (c : Config) (size : Z) :
  RollingPolicy c = VolumeRolling -> ParseVolume_size (RollingVolumeSize c) < 0 -> 0 <= size ->
  exists m, NewManager now cron_accepts c = Some m /\
    Poller.tick format t c m true (Some size) =
      (Some (fst (GenLogFileName format t c m)), snd (GenLogFileName format t c m)).
Proof.
  intros Hp Hn Hs. unfold NewManager. rewrite Hp. cbn -[ParseVolume].
  eexists; split; [reflexivity|]. unfold Poller.tick. cbn [negb].
  unfold ParseVolume at 1. cbn [thresholdSize].
  replace (ParseVolume_size (RollingVolumeSize c) <? size)%Z with true by (symmetry; apply Z.ltb_lt; lia).
  reflexivity.
Qed.

Lemma X16_negative_threshold_fires_witness :
  exists m, NewManager 0 (fun _ => true) (Options.WithRollingVolumeSize "8388608TB" NewDefaultConfig) = Some m /\
    Poller.tick (fun _ _ => "202401010000") 1 (Options.WithRollingVolumeSize "8388608TB" NewDefaultConfig) m true (Some 0) =
      (Some (fst (GenLogFileName (fun _ _ => "202401010000") 1 (Options.WithRollingVolumeSize "8388608TB" NewDefaultConfig) m)),
       snd (GenLogFileName (fun _ _ => "202401010000") 1 (Options.WithRollingVolumeSize "8388608TB" NewDefaultConfig) m)).
Proof. apply X16_negative_threshold_fires; [reflexivity|vm_compute; reflexivity|lia]. Defined.

(** X17.  [NewManager] fails exactly when the policy is [TimeRolling] and
    the cron library rejects [RollingTimePattern]; the pattern is not
    looked at under any other policy. *)
Theorem X17_new_manager_fails_iff (now : time) (cron_accepts : string -> bool) (c : Config) :
  NewManager now cron_accepts c = None <->
  RollingPolicy c = TimeRolling /\ cron_accepts (RollingTimePattern c) = false.
Proof.
  unfold NewManager. destruct (RollingPolicy c =? TimeRolling)%Z eqn:Et.
  - apply Z.eqb_eq in Et. destruct (cron_accepts _); split; try discriminate; intuition congruence.
  - apply Z.eqb_neq in Et. destruct (RollingPolicy c =? VolumeRolling)%Z; split; try discriminate;
      intros [H _]; contradiction.
Qed.

(** X18.  A [RollingPolicy] other than [TimeRolling] and [VolumeRolling]
    falls through to [WithoutRolling]: the manager starts neither the cron
    scheduler nor the poller, and is the one [WithoutRolling] gives. *)
Theorem X18_unknown_policy_no_rolling (now : time) (cron_accepts : string -> bool) (c : Config) :
  RollingPolicy c <> TimeRolling -> RollingPolicy c <> VolumeRolling ->
  NewManager now cron_accepts c =
    Some {| thresholdSize := 0; startAt := now; context := ChanOpen; cron_running := false |} /\
  NewManager now cron_accepts c = NewManager now cron_accepts (Options.WithoutRollingPolicy c).
Proof.
  intros Ht Hv. unfold NewManager.
  rewrite (proj2 (Z.eqb_neq _ _) Ht), (proj2 (Z.eqb_neq _ _) Hv). split; reflexivity.
Qed.

Lemma X18_unknown_policy_no_rolling_witness :
  NewManager 0 (fun _ => false) (Options.set_RollingPolicy 7 NewDefaultConfig) =
    Some {| thresholdSize := 0; startAt := 0; context := ChanOpen; cron_running := false |} /\
  NewManager 0 (fun _ => false) (Options.set_RollingPolicy 7 NewDefaultConfig) =
    NewManager 0 (fun _ => false) (Options.WithoutRollingPolicy (Options.set_RollingPolicy 7 NewDefaultConfig)).
Proof. apply X18_unknown_policy_no_rolling; discriminate. Defined.

End ManagerExtras.

Module LogxFacts.
Import Logx.
Local Open Scope string_scope.
Local Open Scope list_scope.

Lemma lower_upper_byte a : lower_byte (GoString.upper_byte a) = lower_byte a.
Proof.
  unfold lower_byte, GoString.upper_byte.
  pose proof (nat_ascii_bounded a) as Hb.
  destruct (97 <=? nat_of_ascii a)%nat eqn:E1; destruct (nat_of_ascii a <=? 122)%nat eqn:E2;
    cbn [andb]; try reflexivity.
  apply Nat.leb_le in E1, E2.
  rewrite nat_ascii_embedding by lia.
  replace ((65 <=? nat_of_ascii a - 32)%nat && (nat_of_ascii a - 32 <=? 90)%nat) with true
    by (symmetry; apply andb_true_intro; split; apply Nat.leb_le; lia).
  replace ((65 <=? nat_of_ascii a)%nat && (nat_of_ascii a <=? 90)%nat) with false
    by (symmetry; apply andb_false_intro2 || apply andb_false_intro1; apply Nat.leb_gt; lia).
  replace (nat_of_ascii a - 32 + 32)%nat with (nat_of_ascii a) by lia.
  apply ascii_nat_embedding.
Qed.

Lemma to_lower_upper s : to_lower (GoString.to_upper s) = to_lower s.
Proof. induction s as [|a s IH]; cbn; [reflexivity|now rewrite IH, lower_upper_byte]. Qed.

Lemma to_lower_app x y : to_lower (x ++ y)%string = (to_lower x ++ to_lower y)%string.
Proof. induction x as [|a x IH]; cbn; [reflexivity|now rewrite IH]. Qed.

Lemma lower_space a : is_space a = true -> lower_byte a = a.
Proof.
  unfold is_space, lower_byte. intros H.
  replace ((65 <=? nat_of_ascii a)%nat && (nat_of_ascii a <=? 90)%nat) with false; [reflexivity|].
  symmetry. apply orb_prop in H as [H|H].
  - apply andb_prop in H as [_ H]. apply Nat.leb_le in H. apply andb_false_intro1, Nat.leb_gt; lia.
  - apply Nat.eqb_eq in H. apply andb_false_intro1, Nat.leb_gt; lia.
Qed.

Lemma to_lower_spaces l :
  forallb is_space (list_ascii_of_string l) = true -> to_lower l = l.
Proof.
  induction l as [|a l IH]; cbn; [reflexivity|].
  intros H; apply andb_prop in H as [Ha Hl]. now rewrite IH, lower_space.
Qed.

Lemma drop_space_spaces l x : forallb is_space l = true -> drop_space (l ++ x) = drop_space x.
Proof.
  induction l as [|a l IH]; cbn; [reflexivity|].
  intros H; apply andb_prop in H as [Ha Hl]. rewrite Ha. exact (IH Hl).
Qed.

Lemma drop_space_nil l : drop_space l = [] -> forallb is_space l = true.
Proof.
  induction l as [|a l IH]; cbn; [reflexivity|].
  destruct (is_space a); [exact IH|discriminate].
Qed.

Lemma drop_space_app x y : drop_space x <> [] -> drop_space (x ++ y) = drop_space x ++ y.
Proof.
  induction x as [|a x IH]; cbn; [contradiction|].
  destruct (is_space a); [exact IH|reflexivity].
Qed.

Lemma forallb_rev (l : list ascii) : forallb is_space (rev l) = forallb is_space l.
Proof.
  induction l as [|a l IH]; cbn; [reflexivity|].
  rewrite forallb_app, IH. cbn. rewrite andb_true_r, andb_comm. reflexivity.
Qed.

Lemma trim_space_list_pad l x r :
  forallb is_space l = true -> forallb is_space r = true ->
  rev (drop_space (rev (drop_space (l ++ x ++ r)))) = rev (drop_space (rev (drop_space x))).
Proof.
  intros Hl Hr. rewrite drop_space_spaces by exact Hl.
  destruct (drop_space x) as [|a x'] eqn:Ex.
  - apply drop_space_nil in Ex.
    rewrite drop_space_spaces by exact Ex.
    replace (drop_space r) with (@nil ascii); [reflexivity|].
    rewrite <- (app_nil_r r) at 1. rewrite drop_space_spaces by exact Hr. reflexivity.
  - rewrite drop_space_app by (rewrite Ex; discriminate). rewrite Ex.
    rewrite rev_app_distr. rewrite drop_space_spaces by (rewrite forallb_rev; exact Hr). reflexivity.
Qed.

Lemma string_list_app x y :
  list_ascii_of_string (x ++ y)%string = list_ascii_of_string x ++ list_ascii_of_string y.
Proof. induction x as [|a x IH]; cbn; [reflexivity|now rewrite IH]. Qed.

Lemma trim_space_pad l x r :
  forallb is_space (list_ascii_of_string l) = true -> forallb is_space (list_ascii_of_string r) = true ->
  trim_space (l ++ x ++ r)%string = trim_space x.
Proof.
  intros Hl Hr. unfold trim_space. rewrite !string_list_app.
  rewrite trim_space_list_pad by assumption. reflexivity.
Qed.


Lemma build_cores_nil_panic E enc f apps app o :
  In app apps -> Rolling app = None -> exists msg, fst (build_cores E enc f apps o) = Panic msg.
Proof.
  revert o; induction apps as [|a apps IH]; intros o Hin Hn; [destruct Hin|].
  cbn [build_cores]. destruct (Rolling a) as [rc|] eqn:Ea; [|eexists; reflexivity].
  destruct Hin as [->|Hin]; [congruence|].
  destruct (Construct.NewWriterFromConfig E rc o) as [[w|m] o1]; [|eexists; reflexivity].
  destruct (IH o1 Hin Hn) as [msg Hm].
  destruct (build_cores E enc f apps o1) as [[cores|m'] o2]; cbn in Hm |- *; [discriminate|].
  eexists; reflexivity.
Qed.

Lemma build_cores_levels E enc f apps o cores o' :
  build_cores E enc f apps o = (Ok cores, o') ->
  map zlevel cores = map (fun a => logLevel (Level a)) apps /\
  Forall (fun z => zenc z = enc /\ zformat z = f) cores.
Proof.
  revert o cores; induction apps as [|a apps IH]; intros o cores H; cbn [build_cores] in H.
  - inversion H; subst. split; [reflexivity|constructor].
  - destruct (Rolling a) as [rc|]; [|discriminate].
    destruct (Construct.NewWriterFromConfig E rc o) as [[w|m] o1]; [|discriminate].
    destruct (build_cores E enc f apps o1) as [[cs|m'] o2] eqn:Eb; [|discriminate].
    inversion H; subst. destruct (IH _ _ Eb) as [L F].
    split; [cbn; rewrite L; reflexivity|constructor; [split; reflexivity|exact F]].
Qed.


End LogxFacts.

Module LogxExtras.
Import Logx.
Local Open Scope string_scope.
Local Open Scope list_scope.

(** X19.  [logLevel] and [encoder] ignore the case of their argument and
    the white space around it: padding with spaces, tabs or newlines and
    upper-casing give the same level and the same encoder. *)
Theorem X19_level_encoder_normalised (l s r : string) :
  forallb is_space (list_ascii_of_string l) = true ->
  forallb is_space (list_ascii_of_string r) = true ->
  logLevel (l ++ GoString.to_upper s ++ r) = logLevel s /\
  encoder (l ++ GoString.to_upper s ++ r) = encoder s.
Proof.
  intros Hl Hr. unfold logLevel, encoder.
  rewrite !LogxFacts.to_lower_app, LogxFacts.to_lower_upper,
    (LogxFacts.to_lower_spaces l Hl), (LogxFacts.to_lower_spaces r Hr),
    (LogxFacts.trim_space_pad l (to_lower s) r Hl Hr).
  split; reflexivity.
Qed.

Lemma X19_level_encoder_normalised_witness :
  logLevel (" " ++ GoString.to_upper "warn" ++ String (ascii_of_nat 9) "") = logLevel "warn" /\
  encoder (" " ++ GoString.to_upper "console" ++ String (ascii_of_nat 9) "") = encoder "console".
Proof. split; apply X19_level_encoder_normalised; reflexivity. Defined.

(** X20.  [Development] has no effect on [Init]: the logger built with
    development mode on is the one built with it off (the result of
    [logger.WithOptions(zap.Development())] is discarded). *)
Theorem X20_development_ignored E hostname abs dir (cfg : Config) o :
  Init E hostname abs dir cfg o =
  Init E hostname abs dir {| Format := Format cfg; Type_ := Type_ cfg; Stacktrace := Stacktrace cfg;
                             Development := negb (Development cfg); Appenders := Appenders cfg |} o.
Proof.
  unfold Init. cbn [Format Type_ Stacktrace Development Appenders].
  destruct (runner hostname abs dir) as [hn pwd].
  destruct (build_cores _ _ _ _ _) as [[cores|m] o1]; [|reflexivity].
  destruct (Stacktrace cfg), (Development cfg); reflexivity.
Qed.

(** X21.  An appender without a [Rolling] configuration makes [Init]
    panic: [NewWriterFromConfig] dereferences the nil pointer. *)
Theorem X21_nil_rolling_panics E hostname abs dir (cfg : Config) o (app : appender) :
  In app (Appenders cfg) -> Rolling app = None ->
  exists msg, fst (Init E hostname abs dir cfg o) = Panic msg.
Proof.
  intros Hin Hn. unfold Init. destruct (runner hostname abs dir) as [hn pwd].
  destruct (LogxFacts.build_cores_nil_panic E (encoder (Type_ cfg)) (Format cfg) (Appenders cfg) app o Hin Hn)
    as [msg Hm].
  destruct (build_cores _ _ _ _ _) as [[cores|m] o1]; cbn in Hm |- *; [discriminate|].
  eexists; reflexivity.
Qed.

Lemma X21_nil_rolling_panics_witness :
  exists msg, fst (Init Fixtures.env0 "host" "/opt/app/bin/app" (fun _ => "/opt/app/bin")
                     (Fixtures.logx_cfg [Fixtures.app_of "info" None]) Fixtures.os_ok) = Panic msg.
Proof. apply (X21_nil_rolling_panics _ _ _ _ _ _ (Fixtures.app_of "info" None)); [left; reflexivity|reflexivity]. Defined.

(** X22.  When [Init] succeeds, the logger has one core per appender, in
    order, at the level [logLevel] reads from the appender's [Level], all
    with the encoder of [Type] and the time format [Format]; it adds the
    caller, adds stack traces from [ErrorLevel] exactly when [Stacktrace]
    is set, and is never in development mode.  The line printed gives
    as "Workerspace" the absolute path of the executable itself, not its
    directory. *)
Theorem X22_init_logger E hostname abs dir (cfg : Config) o msg lg :
  fst (Init E hostname abs dir cfg o) = Ok (msg, lg) ->
  map zlevel (lcores lg) = map (fun a => logLevel (Level a)) (Appenders cfg) /\
  Forall (fun z => zenc z = encoder (Type_ cfg) /\ zformat z = Format cfg) (lcores lg) /\
  lcaller lg = true /\ lstack lg = (if Stacktrace cfg then Some ErrorLevel else None) /\
  ldev lg = false /\
  msg = ("HostName: " ++ hostname ++ ", Workerspace: " ++ abs ++ String (ascii_of_nat 10) "")%string.
Proof.
  unfold Init, runner. cbv zeta.
  destruct (build_cores E (encoder (Type_ cfg)) (Format cfg) (Appenders cfg) o) as [[cores|m] o1] eqn:Eb;
    cbn [fst]; [|discriminate].
  intros H. destruct (LogxFacts.build_cores_levels _ _ _ _ _ _ _ Eb) as [L F].
  destruct (Stacktrace cfg), (Development cfg); inversion H; subst; cbn;
    (split; [exact L|split; [exact F|repeat split]]).
Qed.

Lemma X22_init_logger_witness :
  exists msg lg,
    fst (Init Fixtures.env0 "host" "/opt/app/bin/app" (fun _ => "/opt/app/bin")
           (Fixtures.logx_cfg [Fixtures.app_of " DEBUG" (Some (Fixtures.cfg "lock" 64))]) Fixtures.os_ok) =
      Ok (msg, lg) /\
    map zlevel (lcores lg) = map (fun a => logLevel (Level a)) [Fixtures.app_of " DEBUG" (Some (Fixtures.cfg "lock" 64))] /\
    Forall (fun z => zenc z = encoder " Console " /\ zformat z = "2006-01-02 15:04:05") (lcores lg) /\
    lcaller lg = true /\ lstack lg = Some ErrorLevel /\ ldev lg = false /\
    msg = ("HostName: " ++ "host" ++ ", Workerspace: " ++ "/opt/app/bin/app" ++ String (ascii_of_nat 10) "")%string.
Proof.
  destruct (fst (Init Fixtures.env0 "host" "/opt/app/bin/app" (fun _ => "/opt/app/bin")
           (Fixtures.logx_cfg [Fixtures.app_of " DEBUG" (Some (Fixtures.cfg "lock" 64))]) Fixtures.os_ok))
    as [[msg lg]|m] eqn:E.
  - exists msg, lg. split; [reflexivity|]. exact (X22_init_logger _ _ _ _ _ _ msg lg E).
  - vm_compute in E. discriminate.
Defined.



End LogxExtras.
